(** * Country Atlas Dashboard: aggregation and derivation logic

    A shallow embedding of [src/app/lib/countryData.ts] (the data aggregator)
    and of the derivation logic of [src/app/components/CountryDashboard.tsx]
    (regions, visible list, sort toggling), with the properties the
    specification states about them.

    Conventions of the embedding.
    - A JavaScript [number] is an integer ([Z]); subtraction and the
      multiplication by [1] or [-1] are exact there, as they are in sign on
      finite doubles.
    - A JavaScript string is a [string]; its characters stand for code units.
    - A field the source tests for presence ([cca2], [cca3], [region],
      [capital], [currencies], [country?.id], [value]) is an [option], with
      [None] for an absent (or null) value.  A field the source dereferences
      without a test ([name.common], [population]) follows its declared type.
    - A [Map<string, number>] is a [gmap string Z]. *)

From stdpp Require Import gmap strings list sorting pretty.
From Stdlib Require Import ZArith Lia Ascii.

(** ** The host's built-ins *)

Module JS.

(** Truthiness of a string value: every string but the empty one. *)
Definition truthy (s : string) : bool := bool_decide (s ≠ "").

(** Truthiness of a possibly absent string. *)
Definition truthy_opt (o : option string) : bool :=
  match o with
  | Some s => truthy s
  | None => false
  end.

(** [a || b] on a possibly absent string. *)
Definition or_else (o : option string) (d : string) : string :=
  match o with
  | Some s => if truthy s then s else d
  | None => d
  end.

(** [Array.prototype.join]. *)
Definition join (sep : string) (l : list string) : string :=
  String.concat sep l.

(** [String.prototype.includes]: [t] occurs in [s] at some position. *)
Fixpoint includes (s t : string) : bool :=
  String.prefix t s ||
  match s with
  | EmptyString => false
  | String _ s' => includes s' t
  end.

Section Sort.
Context {A : Type}.

(** [Array.prototype.sort(comparefn)] is a stable sort: an element moves
    behind another one only when the comparator is positive on them. *)
Fixpoint sort_insert (cmp : A → A → Z) (x : A) (l : list A) : list A :=
  match l with
  | [] => [x]
  | y :: l' =>
      if decide (cmp x y ≤ 0)%Z then x :: y :: l'
      else y :: sort_insert cmp x l'
  end.

Definition sort (cmp : A → A → Z) (l : list A) : list A :=
  foldr (sort_insert cmp) [] l.

(** The order a comparator asks for: [a] may stand before [b]. *)
Definition inOrder (cmp : A → A → Z) (a b : A) : Prop := (cmp a b ≤ 0)%Z.
End Sort.

(** The comparison [sort()] uses without a comparator, on strings: the
    lexicographic order of the code units. *)
Definition defaultCompare (x y : string) : Z :=
  match String.compare x y with
  | Lt => (-1)%Z
  | Eq => 0%Z
  | Gt => 1%Z
  end.

Section SetOf.
Context {A : Type} `{EqDecision A}.

(** [Set.prototype.add] on the insertion-ordered elements of a set. *)
Definition set_add (s : list A) (x : A) : list A :=
  if decide (x ∈ s) then s else s ++ [x].

(** [Array.from(new Set(l))]: the distinct values of [l], each at the
    place of its first occurrence. *)
Definition set_of (l : list A) : list A := foldl set_add [] l.
End SetOf.

(** What the host decides by locale or by Unicode tables, or formats. *)
Class StringBuiltins := {
  toLowerCase : string → string;
  trim : string → string;
  localeCompare : string → string → Z;
  numberToString : Z → string;
}.

End JS.

(** ** [countryData.ts] *)

Module Currency.
Record t := { name : string }.
End Currency.

Module RestCountry.
Record t := {
  name : string;                       (* name.common *)
  cca2 : option string;
  cca3 : option string;
  capital : option (list string);
  region : option string;
  population : Z;
  (* the object's own properties, in enumeration order *)
  currencies : option (list (string * Currency.t));
}.
End RestCountry.

Module CountryRecord.
Record t := {
  name : string;
  cca2 : option string;                (* copied from the entry as it is *)
  cca3 : option string;
  capital : string;
  region : string;
  population : Z;
  currencies : string;
  gdp : option Z;
}.
End CountryRecord.

Module Country.
Record t := { id : option string }.
End Country.

Module WorldBankEntry.
Record t := {
  country : option Country.t;
  value : option Z;
}.
End WorldBankEntry.

Definition placeholder : string := "—".

Definition buildCurrencyLabel
    (currencies : option (list (string * Currency.t))) : string :=
  match currencies with
  | None => placeholder
  | Some props => JS.join ", " ((λ p, Currency.name p.2) <$> props)
  end.

(** One turn of the loop of [pickLatestGdp]. *)
Definition pickLatestGdp_step
    (gdpMap : gmap string Z) (entry : WorldBankEntry.t) : gmap string Z :=
  match WorldBankEntry.country entry ≫= Country.id, WorldBankEntry.value entry with
  | Some code, Some v =>
      if JS.truthy code then
        match gdpMap !! code with
        | Some _ => gdpMap
        | None => <[code := v]> gdpMap
        end
      else gdpMap
  | _, _ => gdpMap
  end.

Definition pickLatestGdp (entries : list WorldBankEntry.t) : gmap string Z :=
  foldl pickLatestGdp_step ∅ entries.

(** A resolved response: its [ok] flag and its parsed body. *)
Record Response (A : Type) := { ok : bool; json : A }.
Arguments ok {A} _.
Arguments json {A} _.

(** The element at index 1 of the body of the indicator response. *)
Inductive GdpJson1 :=
  | JArray (entries : list WorldBankEntry.t)
  | JNotArray.

Inductive Result (A : Type) :=
  | Resolved (a : A)
  | Rejected (message : string).
Arguments Resolved {A} _.
Arguments Rejected {A} _.

(** [Array.isArray(gdpJson[1]) ? gdpJson[1] : []]. *)
Definition gdpEntriesOf (gdpJson1 : GdpJson1) : list WorldBankEntry.t :=
  match gdpJson1 with
  | JArray entries => entries
  | JNotArray => []
  end.

(** The predicate of the [filter] call. *)
Definition hasCodes (country : RestCountry.t) : bool :=
  JS.truthy_opt (RestCountry.cca2 country) && JS.truthy_opt (RestCountry.cca3 country).

(** The function of the [map] call. *)
Definition toRecord (gdpMap : gmap string Z) (country : RestCountry.t)
    : CountryRecord.t :=
  {| CountryRecord.name := RestCountry.name country;
     CountryRecord.cca2 := RestCountry.cca2 country;
     CountryRecord.cca3 := RestCountry.cca3 country;
     CountryRecord.capital :=
       default placeholder (RestCountry.capital country ≫= head);
     CountryRecord.region := JS.or_else (RestCountry.region country) "Other";
     CountryRecord.population := RestCountry.population country;
     CountryRecord.currencies :=
       buildCurrencyLabel (RestCountry.currencies country);
     CountryRecord.gdp := RestCountry.cca2 country ≫= (gdpMap !!.) |}.

(** The comparator of the [sort] call. *)
Definition byPopulationDesc (a b : CountryRecord.t) : Z :=
  (CountryRecord.population b - CountryRecord.population a)%Z.

(** The [return] expression of [getCountries]. *)
Definition aggregate (restData : list RestCountry.t) (gdpMap : gmap string Z)
    : list CountryRecord.t :=
  JS.sort byPopulationDesc (toRecord gdpMap <$> filter hasCodes restData).

Definition getCountries
    (restResponse : Response (list RestCountry.t))
    (gdpResponse : Response GdpJson1) : Result (list CountryRecord.t) :=
  if negb (ok restResponse) then Rejected "Failed to load country metadata."
  else if negb (ok gdpResponse) then Rejected "Failed to load GDP data."
  else
    let restData := json restResponse in
    let gdpEntries := gdpEntriesOf (json gdpResponse) in
    let gdpMap := pickLatestGdp gdpEntries in
    Resolved (aggregate restData gdpMap).

(** ** [CountryDashboard.tsx] *)

Inductive SortKey := Name | Population | Gdp | Capital | Currencies.

Inductive SortDirection := Asc | Desc.

Global Instance SortKey_eq_dec : EqDecision SortKey.
Proof. solve_decision. Defined.

Global Instance SortDirection_eq_dec : EqDecision SortDirection.
Proof. solve_decision. Defined.

(** The component's state that the derivations read. *)
Record DashboardState := {
  selectedCountry : option CountryRecord.t;
  searchTerm : string;
  regionFilter : string;
  sortKey : SortKey;
  sortDirection : SortDirection;
}.

(** The state of the first render. *)
Definition initialState : DashboardState :=
  {| selectedCountry := None;
     searchTerm := "";
     regionFilter := "All";
     sortKey := Population;
     sortDirection := Desc |}.

(** The value of a record's property, as the comparator reads it. *)
Inductive Value :=
  | VNumber (n : Z)
  | VString (s : string)
  | VNull.

(** [a[sortKey]]. *)
Definition prop (a : CountryRecord.t) (key : SortKey) : Value :=
  match key with
  | Name => VString (CountryRecord.name a)
  | Population => VNumber (CountryRecord.population a)
  | Gdp =>
      match CountryRecord.gdp a with
      | Some g => VNumber g
      | None => VNull
      end
  | Capital => VString (CountryRecord.capital a)
  | Currencies => VString (CountryRecord.currencies a)
  end.

Definition multiplier (dir : SortDirection) : Z :=
  match dir with
  | Asc => 1%Z
  | Desc => (-1)%Z
  end.

(** [regions]: the options of the region select. *)
Definition regions (countries : list CountryRecord.t) : list string :=
  let regionSet := JS.set_of (CountryRecord.region <$> countries) in
  "All" :: JS.sort JS.defaultCompare regionSet.

(** [handleSort]: the state after a click on a column header. *)
Definition handleSort (key : SortKey) (st : DashboardState) : DashboardState :=
  if decide (sortKey st = key) then
    {| selectedCountry := selectedCountry st;
       searchTerm := searchTerm st;
       regionFilter := regionFilter st;
       sortKey := sortKey st;
       sortDirection :=
         match sortDirection st with
         | Asc => Desc
         | Desc => Asc
         end |}
  else
    {| selectedCountry := selectedCountry st;
       searchTerm := searchTerm st;
       regionFilter := regionFilter st;
       sortKey := key;
       sortDirection :=
         if bool_decide (key = Name) || bool_decide (key = Capital)
         then Asc else Desc |}.

Section Derivation.
Context `{JS.StringBuiltins}.

(** [String(v)]. *)
Definition toString (v : Value) : string :=
  match v with
  | VNumber n => JS.numberToString n
  | VString s => s
  | VNull => "null"
  end.

(** The comparator of the visible list. *)
Definition compareBy (key : SortKey) (dir : SortDirection)
    (a b : CountryRecord.t) : Z :=
  let multiplier := multiplier dir in
  let aValue := prop a key in
  let bValue := prop b key in
  match aValue, bValue with
  | VNumber x, VNumber y => ((x - y) * multiplier)%Z
  | _, _ =>
      (JS.localeCompare (toString aValue) (toString bValue) * multiplier)%Z
  end.

(** The predicate of the [filter] call of the visible list. *)
Definition matches (st : DashboardState) (country : CountryRecord.t) : bool :=
  let matchesSearch :=
    JS.includes (JS.toLowerCase (CountryRecord.name country))
                (JS.toLowerCase (JS.trim (searchTerm st))) in
  let matchesRegion :=
    bool_decide (regionFilter st = "All")
    || bool_decide (CountryRecord.region country = regionFilter st) in
  matchesSearch && matchesRegion.

(** [filteredCountries]: the rows of the table. *)
Definition filteredCountries (countries : list CountryRecord.t)
    (st : DashboardState) : list CountryRecord.t :=
  JS.sort (compareBy (sortKey st) (sortDirection st))
          (filter (matches st) countries).
End Derivation.

(** ** A host for evaluating examples

    Case folding of the letters A to Z, trimming of the ASCII white space,
    collation by code unit and decimal printing.  The properties below hold
    for every host; this one runs the examples. *)

Definition lower_ascii (c : ascii) : ascii :=
  let n := N_of_ascii c in
  if bool_decide (65 ≤ n ≤ 90)%N then ascii_of_N (n + 32) else c.

Fixpoint lower (s : string) : string :=
  match s with
  | EmptyString => EmptyString
  | String c s' => String (lower_ascii c) (lower s')
  end.

Fixpoint trim_start (s : string) : string :=
  match s with
  | EmptyString => EmptyString
  | String c s' => if Ascii.is_space c then trim_start s' else s
  end.

Definition trim_ascii (s : string) : string :=
  String.rev (trim_start (String.rev (trim_start s))).

Definition asciiHost : JS.StringBuiltins :=
  {| JS.toLowerCase := lower;
     JS.trim := trim_ascii;
     JS.localeCompare := JS.defaultCompare;
     JS.numberToString := pretty |}.


(** ** Specification-side definitions *)

(** The value an entry contributes for [code]: its value when it carries
    that code, nothing otherwise (a null value contributes nothing). *)
Definition valueFor (code : string) (entry : WorldBankEntry.t) : option Z :=
  if bool_decide (WorldBankEntry.country entry ≫= Country.id = Some code)
  then WorldBankEntry.value entry
  else None.

(** The value of the first entry, in source order, that carries [code] with a
    non-null value. *)
Fixpoint firstValue (code : string) (entries : list WorldBankEntry.t)
    : option Z :=
  match entries with
  | [] => None
  | entry :: rest =>
      match valueFor code entry with
      | Some v => Some v
      | None => firstValue code rest
      end
  end.

(** The text of a nullable amount. *)
Definition gdpText `{JS.StringBuiltins} (o : option Z) : string :=
  match o with
  | Some g => JS.numberToString g
  | None => "null"
  end.

(** The direction a first click on a column gives. *)
Definition defaultDirection (key : SortKey) : SortDirection :=
  match key with
  | Name | Capital => Asc
  | Population | Gdp | Currencies => Desc
  end.

Definition flip_direction (dir : SortDirection) : SortDirection :=
  match dir with
  | Asc => Desc
  | Desc => Asc
  end.

(** A number read from a nullable amount, null counting as [0] as it does
    in arithmetic. *)
Definition toNumber (o : option Z) : Z := default 0%Z o.

(** The comparator as the specification words it: arithmetic on the numeric
    fields, collation on the string fields, times the direction. *)
Definition compareBySpec `{JS.StringBuiltins} (key : SortKey)
    (dir : SortDirection) (a b : CountryRecord.t) : Z :=
  (match key with
   | Population => CountryRecord.population a - CountryRecord.population b
   | Gdp => toNumber (CountryRecord.gdp a) - toNumber (CountryRecord.gdp b)
   | Name => JS.localeCompare (CountryRecord.name a) (CountryRecord.name b)
   | Capital =>
       JS.localeCompare (CountryRecord.capital a) (CountryRecord.capital b)
   | Currencies =>
       JS.localeCompare (CountryRecord.currencies a)
                        (CountryRecord.currencies b)
   end * multiplier dir)%Z.

(** ** Sample data *)

Definition mkEntry (code : string) (v : option Z) : WorldBankEntry.t :=
  {| WorldBankEntry.country := Some {| Country.id := Some code |};
     WorldBankEntry.value := v |}.

Definition mkCountry (n : string) (c2 c3 : option string) (r : option string)
    (p : Z) (cur : option (list (string * Currency.t))) : RestCountry.t :=
  {| RestCountry.name := n;
     RestCountry.cca2 := c2;
     RestCountry.cca3 := c3;
     RestCountry.capital := None;
     RestCountry.region := r;
     RestCountry.population := p;
     RestCountry.currencies := cur |}.

Definition alpha : RestCountry.t :=
  mkCountry "Alpha" (Some "AA") (Some "AAA") (Some "X") 10 None.

Definition beta : RestCountry.t :=
  mkCountry "Beta" (Some "BB") (Some "BBB") (Some "X") 20 None.

(** An entry that shares [alpha]'s three-letter code. *)
Definition alphaTwin : RestCountry.t :=
  mkCountry "Alpha bis" (Some "AB") (Some "AAA") (Some "X") 5 None.

(** An entry whose currency object has no property. *)
Definition noCurrency : RestCountry.t :=
  mkCountry "Gamma" (Some "GG") (Some "GGG") (Some "Y") 1 (Some []).

(** An entry without a two-letter code. *)
Definition noCca2 : RestCountry.t :=
  mkCountry "Delta" None (Some "DDD") (Some "Y") 30 None.

(** An entry whose region is the text of the select's first option. *)
Definition allRegion : RestCountry.t :=
  mkCountry "Epsilon" (Some "EE") (Some "EEE") (Some "All") 7 None.

(** A record with the given name, population and amount. *)
Definition mkRecord (n : string) (p : Z) (g : option Z) : CountryRecord.t :=
  {| CountryRecord.name := n;
     CountryRecord.cca2 := Some "ZZ";
     CountryRecord.cca3 := Some "ZZZ";
     CountryRecord.capital := placeholder;
     CountryRecord.region := "X";
     CountryRecord.population := p;
     CountryRecord.currencies := placeholder;
     CountryRecord.gdp := g |}.

Definition withoutGdp : CountryRecord.t := mkRecord "Nulland" 3 None.

Definition withGdp : CountryRecord.t := mkRecord "Fiveland" 4 (Some 5%Z).

Definition sortedBy (key : SortKey) (dir : SortDirection) : DashboardState :=
  {| selectedCountry := None;
     searchTerm := "";
     regionFilter := "All";
     sortKey := key;
     sortDirection := dir |}.

Definition okWith {A : Type} (body : A) : Response A :=
  {| ok := true; json := body |}.

Definition failedWith {A : Type} (body : A) : Response A :=
  {| ok := false; json := body |}.

(** ** [countryData.ts]: entries that the loop of [pickLatestGdp] uses *)

(** An entry passes the test of the loop: its [country?.id] is truthy and
    its [value] is not null. *)
Definition usable (entry : WorldBankEntry.t) : bool :=
  match WorldBankEntry.country entry ≫= Country.id, WorldBankEntry.value entry with
  | Some code, Some _ => JS.truthy code
  | _, _ => false
  end.

(** ** [CountryDashboard.tsx]: handlers *)

(** A sort key and a direction as the texts the state holds. *)
Definition keyText (key : SortKey) : string :=
  match key with
  | Name => "name"
  | Population => "population"
  | Gdp => "gdp"
  | Capital => "capital"
  | Currencies => "currencies"
  end.

Definition directionText (dir : SortDirection) : string :=
  match dir with
  | Asc => "asc"
  | Desc => "desc"
  end.

(** The casts of the sort select's handler: the sort key, and the
    direction, that a text is; a text outside the type has none. *)
Definition asSortKey (s : string) : option SortKey :=
  if decide (s = "name") then Some Name
  else if decide (s = "population") then Some Population
  else if decide (s = "gdp") then Some Gdp
  else if decide (s = "capital") then Some Capital
  else if decide (s = "currencies") then Some Currencies
  else None.

Definition asDirection (s : string) : option SortDirection :=
  if decide (s = "asc") then Some Asc
  else if decide (s = "desc") then Some Desc
  else None.

(** [String.prototype.split] with a separator of one character. *)
Fixpoint split (sep : ascii) (s : string) : list string :=
  match s with
  | EmptyString => [EmptyString]
  | String c s' =>
      if decide (c = sep) then EmptyString :: split sep s'
      else
        match split sep s' with
        | [] => [String c EmptyString]
        | word :: words => String c word :: words
        end
  end.

(** The [value] of the sort select: [`${sortKey}:${sortDirection}`]. *)
Definition sortSelectValue (st : DashboardState) : string :=
  keyText (sortKey st) +:+ ":" +:+ directionText (sortDirection st).

(** The [value]s of the options of the sort select, in document order. *)
Definition sortOptions : list string :=
  ["population:desc"; "population:asc"; "gdp:desc"; "gdp:asc";
   "name:asc"; "name:desc"].

Definition setSelectedCountry (country : CountryRecord.t)
    (st : DashboardState) : DashboardState :=
  {| selectedCountry := Some country;
     searchTerm := searchTerm st;
     regionFilter := regionFilter st;
     sortKey := sortKey st;
     sortDirection := sortDirection st |}.

Definition setSearchTerm (text : string) (st : DashboardState)
    : DashboardState :=
  {| selectedCountry := selectedCountry st;
     searchTerm := text;
     regionFilter := regionFilter st;
     sortKey := sortKey st;
     sortDirection := sortDirection st |}.

Definition setRegionFilter (region : string) (st : DashboardState)
    : DashboardState :=
  {| selectedCountry := selectedCountry st;
     searchTerm := searchTerm st;
     regionFilter := region;
     sortKey := sortKey st;
     sortDirection := sortDirection st |}.

Definition setSortKey (key : SortKey) (st : DashboardState) : DashboardState :=
  {| selectedCountry := selectedCountry st;
     searchTerm := searchTerm st;
     regionFilter := regionFilter st;
     sortKey := key;
     sortDirection := sortDirection st |}.

Definition setSortDirection (dir : SortDirection) (st : DashboardState)
    : DashboardState :=
  {| selectedCountry := selectedCountry st;
     searchTerm := searchTerm st;
     regionFilter := regionFilter st;
     sortKey := sortKey st;
     sortDirection := dir |}.

(** [onChange] of the sort select, on [event.target.value]; it has no
    result on a text whose parts are outside the types of the cast. *)
Definition onSortChange (value : string) (st : DashboardState)
    : option DashboardState :=
  let parts := split ":" value in
  key ← parts !! 0%nat ≫= asSortKey;
  direction ← parts !! 1%nat ≫= asDirection;
  Some (setSortDirection direction (setSortKey key st)).

(** What the user does to the page. *)
Inductive Event :=
  | SearchChange (text : string)        (* [onChange] of the search input *)
  | RegionChange (region : string)      (* [onChange] of the region select *)
  | SortChange (value : string)         (* [onChange] of the sort select *)
  | HeaderClick (key : SortKey)         (* [onClick] of a column header *)
  | RowClick (country : CountryRecord.t). (* [onClick] of a table row *)

(** The state after an event. *)
Definition dispatch (st : DashboardState) (e : Event) : option DashboardState :=
  match e with
  | SearchChange text => Some (setSearchTerm text st)
  | RegionChange region => Some (setRegionFilter region st)
  | SortChange value => onSortChange value st
  | HeaderClick key => Some (handleSort key st)
  | RowClick country => Some (setSelectedCountry country st)
  end.

Fixpoint run (st : DashboardState) (events : list Event)
    : option DashboardState :=
  match events with
  | [] => Some st
  | e :: events' => dispatch st e ≫= λ st', run st' events'
  end.

(** The country of the last row click of a run, if it has one. *)
Fixpoint lastClicked (events : list Event) : option CountryRecord.t :=
  match events with
  | [] => None
  | e :: events' =>
      match lastClicked events', e with
      | Some c, _ => Some c
      | None, RowClick c => Some c
      | None, _ => None
      end
  end.

(** ** [CountryDashboard.tsx]: selection and rendering *)

(** [selectedCountry?.cca3 ?? null]. *)
Definition selectedCca3 (st : DashboardState) : option string :=
  selectedCountry st ≫= CountryRecord.cca3.

(** [isSelected] of a table row: [selectedCountry?.cca3 === country.cca3];
    an absent code reads as [undefined] on both sides. *)
Definition isSelectedRow (st : DashboardState) (country : CountryRecord.t)
    : bool :=
  bool_decide (selectedCountry st ≫= CountryRecord.cca3
               = CountryRecord.cca3 country).

(** The value of a property of a map feature. *)
Inductive PropertyValue :=
  | Undefined
  | Null
  | Text (s : string)
  | Other.                               (* a value of any other type *)

(** The properties of a feature that the style reads; a feature without
    properties has all three undefined. *)
Record Feature := {
  ISO_A3 : PropertyValue;
  ADM0_A3 : PropertyValue;
  iso_a3 : PropertyValue;
}.

(** [a ?? b]. *)
Definition coalesce (a b : PropertyValue) : PropertyValue :=
  match a with
  | Undefined | Null => b
  | _ => a
  end.

(** [v === selectedCca3], the right side being a text or null. *)
Definition strictEq (v : PropertyValue) (cca3 : option string) : bool :=
  match v, cca3 with
  | Null, None => true
  | Text s, Some code => bool_decide (s = code)
  | _, _ => false
  end.

(** [isSelected] of the style of the tile map. *)
Definition isSelectedFeature (st : DashboardState) (f : Feature) : bool :=
  let isoA3 := coalesce (ISO_A3 f) (coalesce (ADM0_A3 f) (iso_a3 f)) in
  strictEq isoA3 (selectedCca3 st).

(** [isSelected] of a geography of the vector map. *)
Definition isSelectedGeography (st : DashboardState) (geo : Feature) : bool :=
  strictEq (ISO_A3 geo) (selectedCca3 st).

(** The badge of the map header. *)
Definition badge (st : DashboardState) : string :=
  match selectedCountry st with
  | Some c => CountryRecord.name c +:+ " · " +:+ CountryRecord.capital c
  | None => "Select a country below"
  end.

(** The two number formats of the page. *)
Class Formatters := {
  numberFormat : Z → string;             (* [numberFormatter.format] *)
  currencyFormat : Z → string;           (* [currencyFormatter.format] *)
}.

Record Row := {
  rowKey : option string;                (* [key] *)
  rowSelected : bool;                    (* the class [selected] *)
  rowCells : list string;
}.

Inductive TableBody :=
  | EmptyState                           (* "No countries match your filters." *)
  | Rows (rows : list Row).

Section Rendering.
Context `{JS.StringBuiltins} `{Formatters}.

(** The two conjuncts of the predicate of the visible list. *)
Definition matchesSearch (st : DashboardState) (country : CountryRecord.t)
    : bool :=
  JS.includes (JS.toLowerCase (CountryRecord.name country))
              (JS.toLowerCase (JS.trim (searchTerm st))).

Definition matchesRegion (st : DashboardState) (country : CountryRecord.t)
    : bool :=
  bool_decide (regionFilter st = "All")
  || bool_decide (CountryRecord.region country = regionFilter st).

(** The GDP cell: the amount when it is truthy. *)
Definition gdpCell (gdp : option Z) : string :=
  match gdp with
  | Some g => if decide (g = 0%Z) then "Not available" else currencyFormat g
  | None => "Not available"
  end.

Definition row (st : DashboardState) (country : CountryRecord.t) : Row :=
  {| rowKey := CountryRecord.cca3 country;
     rowSelected := isSelectedRow st country;
     rowCells :=
       [CountryRecord.name country;
        numberFormat (CountryRecord.population country);
        gdpCell (CountryRecord.gdp country);
        CountryRecord.capital country;
        CountryRecord.currencies country;
        CountryRecord.region country] |}.

(** The body of the table. *)
Definition tableBody (countries : list CountryRecord.t)
    (st : DashboardState) : TableBody :=
  let visible := filteredCountries countries st in
  if decide (length visible = 0%nat) then EmptyState
  else Rows (row st <$> visible).

(** An event the page can deliver in a state: a region of the select, an
    option of the sort select, a row of the table. *)
Definition offered (countries : list CountryRecord.t)
    (st : DashboardState) (e : Event) : Prop :=
  match e with
  | SearchChange _ => True
  | RegionChange region => region ∈ regions countries
  | SortChange value => value ∈ sortOptions
  | HeaderClick _ => True
  | RowClick country => country ∈ filteredCountries countries st
  end.

(** The states the page reaches from its first render. *)
Inductive reachable (countries : list CountryRecord.t)
    : DashboardState → Prop :=
  | reachable_initial : reachable countries initialState
  | reachable_step st e st' :
      reachable countries st →
      offered countries st e →
      dispatch st e = Some st' →
      reachable countries st'.
End Rendering.

(** ** More sample data *)

Definition usEntries : list WorldBankEntry.t :=
  [mkEntry "FR" (Some 7%Z); mkEntry "US" None; mkEntry "" (Some 1%Z);
   mkEntry "US" (Some 100%Z); mkEntry "US" (Some 90%Z)].

Definition unitedStates : RestCountry.t :=
  mkCountry "United States" (Some "US") (Some "USA") (Some "Americas") 300 None.

(** Indicator entries keyed by the three-letter code. *)
Definition usaEntries : list WorldBankEntry.t :=
  [mkEntry "USA" (Some 100%Z)].

Definition sampleRecords : list CountryRecord.t :=
  [toRecord ∅ beta; toRecord ∅ alpha; toRecord ∅ noCurrency].

Definition sampleFormatters : Formatters :=
  {| numberFormat := pretty; currencyFormat := λ g, "$" +:+ pretty g |}.

Definition franceFeature : Feature :=
  {| ISO_A3 := Text "-99"; ADM0_A3 := Text "FRA"; iso_a3 := Undefined |}.

Definition betaFeature : Feature :=
  {| ISO_A3 := Undefined; ADM0_A3 := Text "BBB"; iso_a3 := Undefined |}.

(** ** Sorting *)

Section SortFacts.
Context {A : Type} (cmp : A → A → Z).

Lemma sort_insert_Permutation x l : JS.sort_insert cmp x l ≡ₚ x :: l.
Proof.
  induction l as [|y l IH]; simpl; [done|].
  case_decide; [done|].
  rewrite IH. apply Permutation_swap.
Qed.

Lemma sort_Permutation l : JS.sort cmp l ≡ₚ l.
Proof.
  induction l as [|x l IH]; simpl; [done|].
  unfold JS.sort in *. rewrite sort_insert_Permutation. by f_equiv.
Qed.

Lemma sort_elem_of x l : x ∈ JS.sort cmp l ↔ x ∈ l.
Proof. by rewrite sort_Permutation. Qed.

Lemma sort_length l : length (JS.sort cmp l) = length l.
Proof. by rewrite sort_Permutation. Qed.

(** Stability on an ordered input: a list whose neighbours may already
    stand as they are, ties included, comes back unchanged. *)
Lemma sort_ordered_id l : Sorted (JS.inOrder cmp) l → JS.sort cmp l = l.
Proof.
  induction 1 as [|x l Hl IH Hhd]; [done|].
  unfold JS.sort in *; simpl. rewrite IH.
  destruct Hhd as [|y l Hxy]; simpl; [done|].
  by rewrite decide_True.
Qed.

(** A comparator that never says of two elements that each goes behind
    the other. *)
Hypothesis cmp_consistent : ∀ x y, (0 < cmp x y)%Z → (cmp y x ≤ 0)%Z.

Lemma sort_insert_HdRel x y l :
  (JS.inOrder cmp) y x → HdRel (JS.inOrder cmp) y l → HdRel (JS.inOrder cmp) y (JS.sort_insert cmp x l).
Proof.
  intros Hyx Hl. destruct l as [|z l]; simpl.
  - by constructor.
  - case_decide; constructor; [done|]. by inversion Hl.
Qed.

Lemma sort_insert_Sorted x l :
  Sorted (JS.inOrder cmp) l → Sorted (JS.inOrder cmp) (JS.sort_insert cmp x l).
Proof.
  induction 1 as [|y l Hl IH Hhd]; simpl.
  - by repeat constructor.
  - case_decide as Hxy.
    + constructor; [by constructor|]. by constructor.
    + constructor; [done|].
      apply sort_insert_HdRel; [|done].
      apply cmp_consistent. lia.
Qed.

Lemma sort_Sorted l : Sorted (JS.inOrder cmp) (JS.sort cmp l).
Proof.
  induction l as [|x l IH]; simpl; [constructor|].
  by apply sort_insert_Sorted.
Qed.
End SortFacts.

Lemma Sorted_lookup_adjacent {A} (R : relation A) l i a b :
  Sorted R l → l !! i = Some a → l !! S i = Some b → R a b.
Proof.
  intros Hs. revert i. induction Hs as [|x l Hl IH Hhd]; intros i Ha Hb.
  - done.
  - destruct i as [|i]; simpl in *.
    + simplify_eq. destruct l; simplify_eq/=. by inversion Hhd.
    + eauto.
Qed.

(** ** The aggregator *)

Lemma Sorted_mono {A} (R1 R2 : relation A) l :
  (∀ x y, R1 x y → R2 x y) → Sorted R1 l → Sorted R2 l.
Proof.
  intros HR. induction 1 as [|x l Hl IH Hhd]; constructor; [done|].
  destruct Hhd; constructor. by apply HR.
Qed.

Lemma byPopulationDesc_consistent a b :
  (0 < byPopulationDesc a b)%Z → (byPopulationDesc b a ≤ 0)%Z.
Proof. unfold byPopulationDesc. lia. Qed.

Lemma aggregate_Permutation restData gdpMap :
  aggregate restData gdpMap ≡ₚ toRecord gdpMap <$> filter hasCodes restData.
Proof. apply sort_Permutation. Qed.

Lemma aggregate_Sorted restData gdpMap :
  Sorted (JS.inOrder byPopulationDesc) (aggregate restData gdpMap).
Proof. apply sort_Sorted, byPopulationDesc_consistent. Qed.

Lemma getCountries_Resolved restResponse gdpResponse records :
  getCountries restResponse gdpResponse = Resolved records →
  ok restResponse = true ∧ ok gdpResponse = true ∧
  records =
    aggregate (json restResponse)
              (pickLatestGdp (gdpEntriesOf (json gdpResponse))).
Proof.
  unfold getCountries.
  destruct (ok restResponse), (ok gdpResponse); simpl; intros; by simplify_eq.
Qed.

Lemma truthy_opt_spec o : JS.truthy_opt o ↔ ∃ s, o = Some s ∧ s ≠ "".
Proof.
  destruct o as [s|]; simpl.
  - unfold JS.truthy. rewrite bool_decide_spec. split.
    + eauto.
    + by intros (? & [= <-] & ?).
  - split; [done|]. by intros (? & ? & ?).
Qed.

Lemma hasCodes_spec country :
  hasCodes country ↔
  (∃ c2, RestCountry.cca2 country = Some c2 ∧ c2 ≠ "") ∧
  (∃ c3, RestCountry.cca3 country = Some c3 ∧ c3 ≠ "").
Proof. unfold hasCodes. by rewrite andb_True, !truthy_opt_spec. Qed.

(** C1: the record list that [getCountries] returns is sorted descending by
    population: of two adjacent records, the first has a population at
    least that of the second. *)
Theorem getCountries_sorted_desc restResponse gdpResponse records i a b :
  getCountries restResponse gdpResponse = Resolved records →
  records !! i = Some a →
  records !! S i = Some b →
  (CountryRecord.population b ≤ CountryRecord.population a)%Z.
Proof.
  intros (_ & _ & ->)%getCountries_Resolved Ha Hb.
  pose proof (Sorted_lookup_adjacent _ _ _ _ _
                (aggregate_Sorted _ _) Ha Hb) as Hab.
  unfold JS.inOrder, byPopulationDesc in Hab. lia.
Qed.

Lemma getCountries_sorted_desc_witness :
  (CountryRecord.population (toRecord ∅ alpha)
   ≤ CountryRecord.population (toRecord ∅ beta))%Z.
Proof.
  apply (getCountries_sorted_desc
           (okWith [alpha; beta]) (okWith JNotArray)
           [toRecord ∅ beta; toRecord ∅ alpha] 0); reflexivity.
Defined.

(** The loop of [pickLatestGdp], started from any map: a code already in the
    map keeps its value; any other truthy code gets its first value. *)
Lemma pickLatestGdp_foldl entries (gdpMap : gmap string Z) code :
  foldl pickLatestGdp_step gdpMap entries !! code =
  match gdpMap !! code with
  | Some v => Some v
  | None => if JS.truthy code then firstValue code entries else None
  end.
Proof.
  revert gdpMap. induction entries as [|entry entries IH]; intros gdpMap; simpl.
  - destruct (gdpMap !! code), (JS.truthy code); done.
  - rewrite IH. clear IH. unfold pickLatestGdp_step, valueFor.
    destruct (WorldBankEntry.country entry ≫= Country.id) as [c|] eqn:Hc;
      simpl; [|done].
    destruct (WorldBankEntry.value entry) as [v|] eqn:Hv;
      [|by case_bool_decide].
    destruct (JS.truthy c) eqn:Htr.
    + destruct (gdpMap !! c) as [w|] eqn:Hw.
      * destruct (gdpMap !! code) eqn:Hcode; [done|].
        rewrite bool_decide_eq_false_2; [done|]. congruence.
      * destruct (decide (c = code)) as [->|Hne].
        -- rewrite lookup_insert_eq, Hw, Htr.
           by rewrite bool_decide_eq_true_2.
        -- rewrite lookup_insert_ne by done.
           rewrite bool_decide_eq_false_2 by congruence. done.
    + destruct (gdpMap !! code) eqn:Hcode; [done|].
      case_bool_decide; [|done]. simplify_eq. by rewrite Htr.
Qed.

Lemma firstValue_app_first before entry after code v :
  Forall (λ e, valueFor code e = None) before →
  valueFor code entry = Some v →
  firstValue code (before ++ entry :: after) = Some v.
Proof.
  intros Hb He. induction Hb as [|e before He' _ IH]; simpl.
  - by rewrite He.
  - by rewrite He'.
Qed.

(** C2: [pickLatestGdp] maps each country code to the value of the first
    entry, in source order, that carries the code with a non-null value,
    whatever entries follow it; the entries US 100, US 90 give US 100. *)
Theorem pickLatestGdp_first_wins :
  (∀ entries code,
     pickLatestGdp entries !! code =
     if JS.truthy code then firstValue code entries else None) ∧
  (∀ before entry after code v,
     code ≠ "" →
     Forall (λ e, valueFor code e = None) before →
     WorldBankEntry.country entry ≫= Country.id = Some code →
     WorldBankEntry.value entry = Some v →
     pickLatestGdp (before ++ entry :: after) !! code = Some v) ∧
  pickLatestGdp [mkEntry "US" (Some 100%Z); mkEntry "US" (Some 90%Z)]
  = {[ "US" := 100%Z ]}.
Proof.
  assert (Hchar : ∀ entries code,
            pickLatestGdp entries !! code =
            if JS.truthy code then firstValue code entries else None).
  { intros entries code. unfold pickLatestGdp.
    by rewrite pickLatestGdp_foldl, lookup_empty. }
  split_and!; [done| |].
  - intros before entry after code v Hcode Hb Hc Hv.
    rewrite Hchar. unfold JS.truthy. rewrite bool_decide_eq_true_2 by done.
    apply firstValue_app_first; [done|].
    unfold valueFor. by rewrite bool_decide_eq_true_2.
  - apply map_eq. intros code. rewrite Hchar.
    destruct (decide (code = "US")) as [->|Hne]; [done|].
    rewrite lookup_singleton_ne by done.
    unfold firstValue, valueFor; simpl.
    rewrite !bool_decide_eq_false_2 by congruence.
    by destruct (JS.truthy code).
Qed.

Lemma pickLatestGdp_first_wins_witness :
  pickLatestGdp
    ([mkEntry "FR" (Some 7%Z); mkEntry "US" None]
     ++ mkEntry "US" (Some 100%Z) :: [mkEntry "US" (Some 90%Z)])
  !! "US" = Some 100%Z.
Proof.
  apply (proj1 (proj2 pickLatestGdp_first_wins)).
  - discriminate.
  - repeat constructor.
  - reflexivity.
  - reflexivity.
Defined.

(** C3: [getCountries] fails exactly when one of the two responses has a
    non-success status, and then yields no record list at all; when both
    statuses are successful it returns the aggregated list, which holds one
    record for each metadata entry that has both codes. *)
Theorem getCountries_status restResponse gdpResponse :
  ((ok restResponse = false ∨ ok gdpResponse = false) →
   (∃ message, getCountries restResponse gdpResponse = Rejected message) ∧
   ∀ records, getCountries restResponse gdpResponse ≠ Resolved records) ∧
  (ok restResponse = true → ok gdpResponse = true →
   ∃ records,
     getCountries restResponse gdpResponse = Resolved records ∧
     records ≡ₚ
       toRecord (pickLatestGdp (gdpEntriesOf (json gdpResponse)))
         <$> filter hasCodes (json restResponse)).
Proof.
  unfold getCountries. split.
  - intros [Hr|Hg].
    + rewrite Hr; simpl. split; [by eexists|done].
    + rewrite Hg. destruct (ok restResponse); simpl; (split; [by eexists|done]).
  - intros -> ->; simpl. eexists; split; [done|].
    apply aggregate_Permutation.
Qed.

Lemma getCountries_status_witness :
  ((∃ message,
      getCountries (failedWith [alpha; beta]) (okWith JNotArray)
      = Rejected message) ∧
   ∀ records,
     getCountries (failedWith [alpha; beta]) (okWith JNotArray)
     ≠ Resolved records) ∧
  (∃ message,
     getCountries (okWith [alpha; beta]) (failedWith JNotArray)
     = Rejected message) ∧
  ∃ records,
    getCountries (okWith [alpha; beta]) (okWith JNotArray) = Resolved records ∧
    records ≡ₚ toRecord (pickLatestGdp []) <$> filter hasCodes [alpha; beta].
Proof.
  destruct (getCountries_status
              (failedWith [alpha; beta]) (okWith JNotArray)) as [Hrest _].
  destruct (getCountries_status
              (okWith [alpha; beta]) (failedWith JNotArray)) as [Hgdp _].
  destruct (getCountries_status
              (okWith [alpha; beta]) (okWith JNotArray)) as [_ Hboth].
  split; [exact (Hrest (or_introl eq_refl))|].
  split; [exact (proj1 (Hgdp (or_intror eq_refl)))|].
  exact (Hboth eq_refl eq_refl).
Defined.

(** C4, as stated, fails: two metadata entries that share a three-letter
    code both reach the output. *)
Lemma getCountries_cca3_repeated :
  ∃ records,
    getCountries (okWith [alpha; alphaTwin]) (okWith JNotArray)
    = Resolved records ∧
    ¬ NoDup (CountryRecord.cca3 <$> records).
Proof.
  eexists. split; [reflexivity|].
  vm_compute. intros Hnd. apply NoDup_cons in Hnd as [Hnotin _].
  apply Hnotin. apply list_elem_of_here.
Qed.

(** C4, amended: when the metadata entries that have both codes carry
    pairwise distinct three-letter codes, no two records of the output of
    [getCountries] share a [cca3]. *)
Theorem getCountries_cca3_unique restResponse gdpResponse records :
  NoDup (RestCountry.cca3 <$> filter hasCodes (json restResponse)) →
  getCountries restResponse gdpResponse = Resolved records →
  NoDup (CountryRecord.cca3 <$> records).
Proof.
  intros Hnd (_ & _ & ->)%getCountries_Resolved.
  rewrite aggregate_Permutation, <- list_fmap_compose.
  exact Hnd.
Qed.

Lemma getCountries_cca3_unique_witness :
  NoDup (CountryRecord.cca3 <$> [toRecord ∅ beta; toRecord ∅ alpha]).
Proof.
  apply (getCountries_cca3_unique (okWith [alpha; beta]) (okWith JNotArray)).
  - apply (bool_decide_unpack _). vm_compute. exact I.
  - reflexivity.
Defined.

(** C9: every record of the output of [getCountries] is built from a
    metadata entry of the input that has both a [cca2] and a [cca3]; an
    entry that misses one of them contributes no record. *)
Theorem getCountries_only_coded restResponse gdpResponse records r :
  getCountries restResponse gdpResponse = Resolved records →
  r ∈ records →
  ∃ country c2 c3,
    country ∈ json restResponse ∧
    RestCountry.cca2 country = Some c2 ∧ c2 ≠ "" ∧
    RestCountry.cca3 country = Some c3 ∧ c3 ≠ "" ∧
    r = toRecord (pickLatestGdp (gdpEntriesOf (json gdpResponse))) country.
Proof.
  intros (_ & _ & ->)%getCountries_Resolved Hr.
  rewrite aggregate_Permutation in Hr.
  apply list_elem_of_fmap in Hr as (country & -> & Hin).
  apply list_elem_of_filter in Hin as [Hcodes Hin].
  apply hasCodes_spec in Hcodes as [(c2 & ? & ?) (c3 & ? & ?)].
  by exists country, c2, c3.
Qed.

Lemma getCountries_only_coded_witness :
  ∃ country c2 c3,
    country ∈ [noCca2; alpha] ∧
    RestCountry.cca2 country = Some c2 ∧ c2 ≠ "" ∧
    RestCountry.cca3 country = Some c3 ∧ c3 ≠ "" ∧
    toRecord ∅ alpha = toRecord (pickLatestGdp []) country.
Proof.
  apply (getCountries_only_coded
           (okWith [noCca2; alpha]) (okWith JNotArray) [toRecord ∅ alpha]).
  - reflexivity.
  - apply list_elem_of_here.
Defined.

(** C10: when both responses have a success status and the element at
    index 1 of the indicator body is not an array, [getCountries] does not
    fail: it returns the aggregated list, one record for each metadata entry
    that has both codes, and every record has a null [gdp]. *)
Theorem getCountries_gdp_not_array restResponse gdpResponse :
  ok restResponse = true →
  ok gdpResponse = true →
  json gdpResponse = JNotArray →
  ∃ records,
    getCountries restResponse gdpResponse = Resolved records ∧
    records = aggregate (json restResponse) ∅ ∧
    length records = length (filter hasCodes (json restResponse)) ∧
    Forall (λ r, CountryRecord.gdp r = None) records.
Proof.
  intros Hr Hg Hj. unfold getCountries. rewrite Hr, Hg, Hj; simpl.
  eexists. split_and!; [done|done|..].
  - by rewrite aggregate_Permutation, length_fmap.
  - rewrite aggregate_Permutation, Forall_fmap.
    apply Forall_forall. intros country _; simpl.
    by destruct (RestCountry.cca2 country).
Qed.

Lemma getCountries_gdp_not_array_witness :
  ∃ records,
    getCountries (okWith [alpha; noCca2; beta]) (okWith JNotArray)
    = Resolved records ∧
    records = aggregate [alpha; noCca2; beta] ∅ ∧
    length records = length (filter hasCodes [alpha; noCca2; beta]) ∧
    Forall (λ r, CountryRecord.gdp r = None) records.
Proof.
  apply (getCountries_gdp_not_array
           (okWith [alpha; noCca2; beta]) (okWith JNotArray));
    reflexivity.
Defined.

Lemma buildCurrencyLabel_absent : buildCurrencyLabel None = placeholder.
Proof. reflexivity. Qed.

Lemma buildCurrencyLabel_names props :
  buildCurrencyLabel (Some props)
  = JS.join ", " ((λ p, Currency.name p.2) <$> props).
Proof. reflexivity. Qed.

(** The sibling field: an empty capital list gives the placeholder, as an
    absent one does. *)
Lemma toRecord_capital_empty gdpMap country :
  RestCountry.capital country = None ∨ RestCountry.capital country = Some [] →
  CountryRecord.capital (toRecord gdpMap country) = placeholder.
Proof. by intros [H|H]; simpl; rewrite H. Qed.

(** C6, at an entry whose currency object has no property: the produced
    record's [currencies] is the empty text, where the claim asks for the
    placeholder. *)
Theorem getCountries_empty_currencies :
  buildCurrencyLabel (Some []) = "" ∧
  ∃ r,
    getCountries (okWith [noCurrency]) (okWith JNotArray) = Resolved [r] ∧
    RestCountry.currencies noCurrency = Some [] ∧
    CountryRecord.currencies r = "" ∧
    CountryRecord.currencies r ≠ placeholder ∧
    CountryRecord.capital r = placeholder.
Proof.
  split; [reflexivity|].
  eexists. split; [reflexivity|]. by split_and!.
Qed.

(** ** The dashboard *)

(** C7: [handleSort] with the current sort key flips the direction and
    nothing else, so two such calls restore the state; with another key it
    makes that key the sort key and sets the direction to ascending for
    name and capital, descending for population, gdp and currencies. *)
Theorem handleSort_toggle (st : DashboardState) (key : SortKey) :
  (key = sortKey st →
   handleSort key st =
     {| selectedCountry := selectedCountry st;
        searchTerm := searchTerm st;
        regionFilter := regionFilter st;
        sortKey := sortKey st;
        sortDirection := flip_direction (sortDirection st) |} ∧
   handleSort key (handleSort key st) = st) ∧
  (key ≠ sortKey st →
   handleSort key st =
     {| selectedCountry := selectedCountry st;
        searchTerm := searchTerm st;
        regionFilter := regionFilter st;
        sortKey := key;
        sortDirection := defaultDirection key |}).
Proof.
  split.
  - intros ->. unfold handleSort. rewrite decide_True by done; simpl.
    split; [done|]. rewrite decide_True by done; simpl.
    by destruct st as [? ? ? ? []].
  - intros Hne. unfold handleSort. rewrite decide_False by done.
    by destruct key.
Qed.

Lemma handleSort_toggle_witness :
  (handleSort Population initialState = sortedBy Population Asc ∧
   handleSort Population (handleSort Population initialState) = initialState) ∧
  handleSort Name initialState = sortedBy Name Asc ∧
  handleSort Gdp (sortedBy Name Asc) = sortedBy Gdp Desc.
Proof.
  split; [|split].
  - apply (handleSort_toggle initialState Population). reflexivity.
  - apply (handleSort_toggle initialState Name). discriminate.
  - apply (handleSort_toggle (sortedBy Name Asc) Gdp). discriminate.
Defined.

Section SetFacts.
Context {A : Type} `{EqDecision A}.

Lemma set_add_NoDup (s : list A) x : NoDup s → NoDup (JS.set_add s x).
Proof.
  intros Hs. unfold JS.set_add. case_decide; [done|].
  apply NoDup_app. split_and!; [done| |apply NoDup_singleton].
  intros y Hy ->%list_elem_of_singleton. done.
Qed.

Lemma set_add_elem_of (s : list A) x y :
  y ∈ JS.set_add s x ↔ y ∈ s ∨ y = x.
Proof.
  unfold JS.set_add. case_decide as Hx.
  - split; [by left|]. by intros [?| ->].
  - by rewrite elem_of_app, list_elem_of_singleton.
Qed.

Lemma foldl_set_add_NoDup (l s : list A) :
  NoDup s → NoDup (foldl JS.set_add s l).
Proof.
  revert s. induction l as [|x l IH]; intros s Hs; simpl; [done|].
  by apply IH, set_add_NoDup.
Qed.

Lemma foldl_set_add_elem_of (l s : list A) y :
  y ∈ foldl JS.set_add s l ↔ y ∈ s ∨ y ∈ l.
Proof.
  revert s. induction l as [|x l IH]; intros s; simpl.
  - rewrite elem_of_nil. tauto.
  - rewrite IH, set_add_elem_of, elem_of_cons. tauto.
Qed.

Lemma set_of_NoDup (l : list A) : NoDup (JS.set_of l).
Proof. apply foldl_set_add_NoDup, NoDup_nil_2. Qed.

Lemma set_of_elem_of (l : list A) y : y ∈ JS.set_of l ↔ y ∈ l.
Proof.
  unfold JS.set_of. rewrite foldl_set_add_elem_of, elem_of_nil. tauto.
Qed.
End SetFacts.

Lemma defaultCompare_consistent x y :
  (0 < JS.defaultCompare x y)%Z → (JS.defaultCompare y x ≤ 0)%Z.
Proof.
  unfold JS.defaultCompare. rewrite (String.compare_antisym y x).
  destruct (String.compare x y); simpl; lia.
Qed.

Lemma defaultCompare_inOrder x y :
  JS.inOrder JS.defaultCompare x y ↔ (x ≤ y)%string.
Proof.
  unfold JS.inOrder, JS.defaultCompare, String.le, String.leb.
  destruct (String.compare x y); simpl; split; (done || lia).
Qed.

Lemma le_ne_compare_Lt x y :
  (x ≤ y)%string → x ≠ y → String.compare x y = Lt.
Proof.
  unfold String.le, String.leb. intros Hle Hne.
  destruct (String.compare x y) eqn:Hc; [|done|done].
  by apply String.compare_eq_iff in Hc.
Qed.

Lemma StronglySorted_NoDup_strict (l : list string) :
  StronglySorted String.le l → NoDup l →
  StronglySorted (λ x y, String.compare x y = Lt) l.
Proof.
  induction 1 as [|x l Hl IH Hall]; intros Hnd; [constructor|].
  apply NoDup_cons in Hnd as [Hx Hnd].
  constructor; [by apply IH|].
  rewrite Forall_forall in Hall |- *. intros y Hy.
  apply le_ne_compare_Lt; [by apply Hall|]. by intros ->.
Qed.

Lemma regions_unfold countries :
  regions countries =
  "All" :: JS.sort JS.defaultCompare (JS.set_of (CountryRecord.region <$> countries)).
Proof. reflexivity. Qed.

(** C8, as stated, fails: a record whose region is the text "All" makes
    that text occur twice in the sequence. *)
Lemma regions_repeats_All :
  regions [toRecord ∅ allRegion; toRecord ∅ alpha] = ["All"; "All"; "X"] ∧
  ¬ NoDup (regions [toRecord ∅ allRegion; toRecord ∅ alpha]).
Proof.
  split; [reflexivity|].
  change (¬ NoDup ["All"; "All"; "X"]).
  intros [Hnotin _]%NoDup_cons. apply Hnotin, list_elem_of_here.
Qed.

(** C8, amended: [regions] returns the text "All" first, followed by the
    distinct region values of the records in strictly increasing
    lexicographic order of their code units, so that what follows the
    leading "All" has no duplicate; the whole sequence has no duplicate
    exactly when no record has the region "All". *)
Theorem regions_spec (countries : list CountryRecord.t) :
  ∃ rest,
    regions countries = "All" :: rest ∧
    (∀ s, s ∈ rest ↔ ∃ r, r ∈ countries ∧ CountryRecord.region r = s) ∧
    StronglySorted (λ x y, String.compare x y = Lt) rest ∧
    NoDup rest ∧
    (NoDup (regions countries) ↔
     ∀ r, r ∈ countries → CountryRecord.region r ≠ "All").
Proof.
  eexists. split; [apply regions_unfold|].
  set (regionSet := JS.set_of (CountryRecord.region <$> countries)).
  assert (Hnd : NoDup (JS.sort JS.defaultCompare regionSet)).
  { rewrite sort_Permutation. apply set_of_NoDup. }
  assert (Hin : ∀ s, s ∈ JS.sort JS.defaultCompare regionSet ↔
                     ∃ r, r ∈ countries ∧ CountryRecord.region r = s).
  { intros s. rewrite sort_elem_of. unfold regionSet.
    rewrite set_of_elem_of, list_elem_of_fmap.
    split; intros (r & ? & ?); by exists r. }
  split_and!; [done| |done|].
  - apply StronglySorted_NoDup_strict; [|done].
    apply Sorted_StronglySorted; [apply _|].
    eapply Sorted_mono; [|apply sort_Sorted, defaultCompare_consistent].
    intros x y. apply defaultCompare_inOrder.
  - rewrite regions_unfold. fold regionSet. rewrite NoDup_cons, Hin.
    split.
    + intros [Hnot _] r Hr Heq. apply Hnot. eauto.
    + intros Hall. split; [|done]. intros (r & Hr & Heq). by eapply Hall.
Qed.

Section DerivationFacts.
Context `{JS.StringBuiltins}.

Lemma compareBy_population dir a b :
  compareBy Population dir a b =
  ((CountryRecord.population a - CountryRecord.population b)
   * multiplier dir)%Z.
Proof. reflexivity. Qed.

Lemma compareBy_gdp dir a b :
  compareBy Gdp dir a b =
  match CountryRecord.gdp a, CountryRecord.gdp b with
  | Some x, Some y => ((x - y) * multiplier dir)%Z
  | ga, gb => (JS.localeCompare (gdpText ga) (gdpText gb) * multiplier dir)%Z
  end.
Proof.
  unfold compareBy; simpl.
  by destruct (CountryRecord.gdp a), (CountryRecord.gdp b).
Qed.

Lemma compareBy_population_consistent dir a b :
  (0 < compareBy Population dir a b)%Z →
  (compareBy Population dir b a ≤ 0)%Z.
Proof. rewrite !compareBy_population. destruct dir; simpl; lia. Qed.

Lemma filteredCountries_Permutation countries st :
  filteredCountries countries st ≡ₚ filter (matches st) countries.
Proof. apply sort_Permutation. Qed.

(** A host that collates the text "null" behind the text of [5] makes the
    comparator positive where the arithmetic one is negative. *)
Lemma compareBy_gdp_null_behind :
  (0 < JS.localeCompare "null" (JS.numberToString 5))%Z →
  (0 < compareBy Gdp Asc withoutGdp withGdp)%Z ∧
  (compareBySpec Gdp Asc withoutGdp withGdp < 0)%Z.
Proof.
  intros Hcoll. rewrite compareBy_gdp; simpl.
  unfold compareBySpec; simpl. lia.
Qed.
End DerivationFacts.

(** C5, as stated, fails on the gdp column when an amount is null: the
    null amount is compared as the text "null", which collates behind the
    digits, so the record without an amount goes behind the one with the
    amount [5] in the ascending list, where arithmetic puts it in front. *)
Lemma compareBy_gdp_null_not_arithmetic :
  @compareBy asciiHost Gdp Asc withoutGdp withGdp = 1%Z ∧
  @compareBySpec asciiHost Gdp Asc withoutGdp withGdp = (-5)%Z ∧
  @filteredCountries asciiHost [withoutGdp; withGdp] (sortedBy Gdp Asc)
  = [withGdp; withoutGdp] ∧
  JS.sort (@compareBySpec asciiHost Gdp Asc) [withoutGdp; withGdp]
  = [withoutGdp; withGdp].
Proof. by vm_compute. Qed.

(** C5, amended: the visible list holds the matching records, ordered by a
    comparator that is the specification's one (arithmetic difference on
    population and gdp, collation on name, capital and currencies, times
    [1] for ascending and [-1] for descending) on every column but gdp with
    a null amount on either side; there the two amounts are collated as
    texts, a null one as "null".  On the population column the rows are in
    the arithmetic order of the direction. *)
Theorem filteredCountries_comparator `{JS.StringBuiltins}
    (countries : list CountryRecord.t) (st : DashboardState)
    (key : SortKey) (dir : SortDirection) (a b : CountryRecord.t) :
  filteredCountries countries st
  = JS.sort (compareBy (sortKey st) (sortDirection st))
            (filter (matches st) countries) ∧
  filteredCountries countries st ≡ₚ filter (matches st) countries ∧
  (key ≠ Gdp ∨
   (is_Some (CountryRecord.gdp a) ∧ is_Some (CountryRecord.gdp b)) →
   compareBy key dir a b = compareBySpec key dir a b) ∧
  (CountryRecord.gdp a = None ∨ CountryRecord.gdp b = None →
   compareBy Gdp dir a b =
   (JS.localeCompare (gdpText (CountryRecord.gdp a))
                     (gdpText (CountryRecord.gdp b)) * multiplier dir)%Z) ∧
  multiplier Asc = 1%Z ∧ multiplier Desc = (-1)%Z ∧
  (sortKey st = Population →
   Sorted (λ x y,
             ((CountryRecord.population x - CountryRecord.population y)
              * multiplier (sortDirection st) ≤ 0)%Z)
          (filteredCountries countries st)).
Proof.
  split_and!; [done|apply filteredCountries_Permutation| | |done|done|].
  - intros [Hkey|[[x Hx] [y Hy]]].
    + by destruct key.
    + destruct key; try done.
      rewrite compareBy_gdp. unfold compareBySpec. by rewrite Hx, Hy.
  - rewrite compareBy_gdp.
    destruct (CountryRecord.gdp a), (CountryRecord.gdp b);
      by intros [?|?]; simplify_eq.
  - intros Hkey. unfold filteredCountries. rewrite Hkey.
    eapply Sorted_mono;
      [|apply sort_Sorted, compareBy_population_consistent].
    intros x y. unfold JS.inOrder. by rewrite compareBy_population.
Qed.

Lemma filteredCountries_comparator_witness :
  @compareBy asciiHost Gdp Desc withGdp withGdp
  = @compareBySpec asciiHost Gdp Desc withGdp withGdp ∧
  @compareBy asciiHost Gdp Desc withoutGdp withGdp
  = (JS.defaultCompare "null" "5" * -1)%Z ∧
  Sorted (λ x y,
            ((CountryRecord.population x - CountryRecord.population y)
             * -1 ≤ 0)%Z)
         (@filteredCountries asciiHost [withoutGdp; withGdp] initialState).
Proof.
  destruct (@filteredCountries_comparator asciiHost
              [withoutGdp; withGdp] initialState Gdp Desc withGdp withGdp)
    as (_ & _ & Hspec & _).
  destruct (@filteredCountries_comparator asciiHost
              [withoutGdp; withGdp] initialState Gdp Desc withoutGdp withGdp)
    as (_ & _ & _ & Hnull & _ & _ & Hsorted).
  split; [|split].
  - apply Hspec. right. split; eexists; reflexivity.
  - apply Hnull. left. reflexivity.
  - apply Hsorted. reflexivity.
Defined.


(** ** More on the aggregator *)

Lemma pickLatestGdp_lookup entries code :
  pickLatestGdp entries !! code =
  if JS.truthy code then firstValue code entries else None.
Proof. unfold pickLatestGdp. by rewrite pickLatestGdp_foldl, lookup_empty. Qed.

Lemma valueFor_Some code entry v :
  valueFor code entry = Some v ↔
  WorldBankEntry.country entry ≫= Country.id = Some code ∧
  WorldBankEntry.value entry = Some v.
Proof.
  unfold valueFor. case_bool_decide; split; try done.
  - by intros [? ?].
  - by intros [? ?].
Qed.

Lemma firstValue_Some code entries v :
  firstValue code entries = Some v →
  ∃ entry, entry ∈ entries ∧ valueFor code entry = Some v.
Proof.
  induction entries as [|e entries IH]; simpl; [done|].
  destruct (valueFor code e) as [w|] eqn:He.
  - intros [= ->]. exists e. split; [apply list_elem_of_here|done].
  - intros (entry & Hin & Hv)%IH. exists entry.
    split; [by apply list_elem_of_further|done].
Qed.

Lemma firstValue_None code entries :
  firstValue code entries = None ↔
  Forall (λ e, valueFor code e = None) entries.
Proof.
  induction entries as [|e entries IH]; simpl.
  - split; [constructor|done].
  - rewrite Forall_cons. destruct (valueFor code e) eqn:He.
    + split; [done|]. by intros [? _].
    + rewrite IH. tauto.
Qed.

Lemma truthy_spec s : JS.truthy s = true ↔ s ≠ "".
Proof. unfold JS.truthy. by rewrite bool_decide_eq_true. Qed.

(** The message of a failed [getCountries] names the first source that
    failed. *)
Lemma getCountries_message restResponse gdpResponse :
  (getCountries restResponse gdpResponse
   = Rejected "Failed to load country metadata."
   ↔ ok restResponse = false) ∧
  (getCountries restResponse gdpResponse = Rejected "Failed to load GDP data."
   ↔ ok restResponse = true ∧ ok gdpResponse = false).
Proof.
  unfold getCountries.
  destruct (ok restResponse), (ok gdpResponse); simpl;
    split; split; (done || by intros [? ?]).
Qed.

(** X1: the amount of a record is joined by the two-letter code: every
    record of the output carries the value of the first indicator entry
    whose country id is the record's [cca2] and whose value is not null,
    and a null amount when there is no such entry. *)
Theorem getCountries_gdp_join restResponse gdpResponse records r :
  getCountries restResponse gdpResponse = Resolved records →
  r ∈ records →
  ∃ c2,
    CountryRecord.cca2 r = Some c2 ∧ c2 ≠ "" ∧
    CountryRecord.gdp r = firstValue c2 (gdpEntriesOf (json gdpResponse)) ∧
    (CountryRecord.gdp r = None ↔
     ∀ entry v,
       entry ∈ gdpEntriesOf (json gdpResponse) →
       WorldBankEntry.country entry ≫= Country.id = Some c2 →
       WorldBankEntry.value entry ≠ Some v).
Proof.
  intros (_ & _ & ->)%getCountries_Resolved Hr.
  rewrite aggregate_Permutation in Hr.
  apply list_elem_of_fmap in Hr as (country & -> & Hin).
  apply list_elem_of_filter in Hin as [Hcodes _].
  apply hasCodes_spec in Hcodes as [(c2 & Hc2 & Hne) _].
  exists c2. simpl. rewrite Hc2; simpl.
  rewrite pickLatestGdp_lookup.
  assert (JS.truthy c2 = true) as -> by by apply truthy_spec.
  split_and!; [done..|].
  rewrite firstValue_None, Forall_forall. split.
  - intros Hall entry v Hentry Hid Hv.
    specialize (Hall entry Hentry).
    assert (valueFor c2 entry = Some v) as Hsome by by apply valueFor_Some.
    congruence.
  - intros Hall entry Hentry.
    destruct (valueFor c2 entry) as [v|] eqn:Hv; [|done].
    apply valueFor_Some in Hv as [Hid Hv]. by destruct (Hall entry v).
Qed.

Lemma getCountries_gdp_join_witness :
  ∃ c2,
    CountryRecord.cca2 (toRecord (pickLatestGdp usaEntries) unitedStates)
    = Some c2 ∧ c2 ≠ "" ∧
    CountryRecord.gdp (toRecord (pickLatestGdp usaEntries) unitedStates)
    = firstValue c2 usaEntries ∧
    (CountryRecord.gdp (toRecord (pickLatestGdp usaEntries) unitedStates)
     = None ↔
     ∀ entry v,
       entry ∈ usaEntries →
       WorldBankEntry.country entry ≫= Country.id = Some c2 →
       WorldBankEntry.value entry ≠ Some v).
Proof.
  apply (getCountries_gdp_join
           (okWith [unitedStates]) (okWith (JArray usaEntries))
           [toRecord (pickLatestGdp usaEntries) unitedStates]).
  - reflexivity.
  - apply list_elem_of_here.
Defined.


Lemma regions_elem_of countries s :
  s ∈ regions countries ↔
  s = "All" ∨ ∃ r, r ∈ countries ∧ CountryRecord.region r = s.
Proof.
  rewrite regions_unfold, elem_of_cons, sort_elem_of, set_of_elem_of.
  rewrite list_elem_of_fmap. split.
  - intros [?|(r & ? & ?)]; [by left|]. right. by exists r.
  - intros [?|(r & ? & ?)]; [by left|]. right. by exists r.
Qed.



(** X3: the map of [pickLatestGdp] has a value for a code exactly when the
    code is not empty and some entry carries it with a non-null value, and
    every value of the map is the value of such an entry. *)
Theorem pickLatestGdp_domain entries code :
  (is_Some (pickLatestGdp entries !! code) ↔
   code ≠ "" ∧
   ∃ entry v,
     entry ∈ entries ∧
     WorldBankEntry.country entry ≫= Country.id = Some code ∧
     WorldBankEntry.value entry = Some v) ∧
  (∀ v,
     pickLatestGdp entries !! code = Some v →
     ∃ entry,
       entry ∈ entries ∧
       WorldBankEntry.country entry ≫= Country.id = Some code ∧
       WorldBankEntry.value entry = Some v).
Proof.
  rewrite pickLatestGdp_lookup.
  assert (Hsound : ∀ v, firstValue code entries = Some v →
            ∃ entry, entry ∈ entries ∧
              WorldBankEntry.country entry ≫= Country.id = Some code ∧
              WorldBankEntry.value entry = Some v).
  { intros v (entry & Hin & Hv)%firstValue_Some.
    apply valueFor_Some in Hv. by exists entry. }
  destruct (JS.truthy code) eqn:Htr.
  - apply truthy_spec in Htr. split; [|done]. split.
    + intros [v (entry & ? & ? & ?)%Hsound]. split; [done|]. by exists entry, v.
    + intros (_ & entry & v & Hin & Hid & Hv).
      destruct (firstValue code entries) as [w|] eqn:Hfirst; [by eexists|].
      rewrite firstValue_None, Forall_forall in Hfirst.
      specialize (Hfirst entry Hin).
      assert (valueFor code entry = Some v) by by apply valueFor_Some.
      congruence.
  - split; [|done]. split; [by intros [? ?]|].
    intros [Hne _]. apply truthy_spec in Hne. congruence.
Qed.

Lemma pickLatestGdp_domain_witness :
  ∃ entry,
    entry ∈ usEntries ∧
    WorldBankEntry.country entry ≫= Country.id = Some "US" ∧
    WorldBankEntry.value entry = Some 100%Z.
Proof.
  apply (proj2 (pickLatestGdp_domain usEntries "US")).
  reflexivity.
Defined.

Lemma pickLatestGdp_step_subseteq gdpMap entry :
  gdpMap ⊆ pickLatestGdp_step gdpMap entry.
Proof.
  unfold pickLatestGdp_step.
  destruct (WorldBankEntry.country entry ≫= Country.id) as [code|]; [|done].
  destruct (WorldBankEntry.value entry) as [v|]; [|done].
  destruct (JS.truthy code); [|done].
  destruct (gdpMap !! code) eqn:Hcode; [done|].
  by apply insert_subseteq.
Qed.

Lemma pickLatestGdp_foldl_subseteq entries gdpMap :
  gdpMap ⊆ foldl pickLatestGdp_step gdpMap entries.
Proof.
  revert gdpMap. induction entries as [|e entries IH]; intros gdpMap; simpl.
  - done.
  - etrans; [apply pickLatestGdp_step_subseteq|apply IH].
Qed.

(** X4: entries appended to the source never change what [pickLatestGdp]
    holds already: the map of a list is included in the map of the list
    followed by any further entries. *)
Theorem pickLatestGdp_append entries more :
  pickLatestGdp entries ⊆ pickLatestGdp (entries ++ more).
Proof.
  unfold pickLatestGdp. rewrite foldl_app.
  apply pickLatestGdp_foldl_subseteq.
Qed.

Lemma pickLatestGdp_step_unusable gdpMap entry :
  usable entry = false → pickLatestGdp_step gdpMap entry = gdpMap.
Proof.
  unfold usable, pickLatestGdp_step.
  destruct (WorldBankEntry.country entry ≫= Country.id) as [code|]; [|done].
  destruct (WorldBankEntry.value entry) as [v|]; [|done].
  by intros ->.
Qed.

Lemma pickLatestGdp_foldl_usable entries gdpMap :
  foldl pickLatestGdp_step gdpMap (filter usable entries)
  = foldl pickLatestGdp_step gdpMap entries.
Proof.
  revert gdpMap. induction entries as [|e entries IH]; intros gdpMap; [done|].
  destruct (usable e) eqn:He.
  - rewrite filter_cons_True by by rewrite He. simpl. apply IH.
  - rewrite filter_cons_False by (rewrite He; simpl; tauto). simpl.
    rewrite pickLatestGdp_step_unusable by done. apply IH.
Qed.

(** X5: entries without a truthy country id or with a null value count for
    nothing: [pickLatestGdp] gives the same map with and without them, and
    the map has at most as many codes as there are usable entries. *)
Theorem pickLatestGdp_usable entries :
  pickLatestGdp (filter usable entries) = pickLatestGdp entries ∧
  size (pickLatestGdp entries) ≤ length (filter usable entries).
Proof.
  split; [apply pickLatestGdp_foldl_usable|].
  unfold pickLatestGdp. rewrite <- pickLatestGdp_foldl_usable.
  assert (Hgen : ∀ l (m : gmap string Z),
            size (foldl pickLatestGdp_step m l) ≤ size m + length l).
  { induction l as [|e l IH]; intros m; simpl; [lia|].
    etrans; [apply IH|].
    assert (size (pickLatestGdp_step m e) ≤ S (size m)); [|lia].
    unfold pickLatestGdp_step.
    destruct (WorldBankEntry.country e ≫= Country.id) as [code|]; [|lia].
    destruct (WorldBankEntry.value e) as [v|]; [|lia].
    destruct (JS.truthy code); [|lia].
    destruct (m !! code) eqn:Hcode; [lia|].
    by rewrite map_size_insert_None. }
  etrans; [apply Hgen|]. by rewrite map_size_empty.
Qed.

Section StableSort.
Context {A : Type} (cmp : A → A → Z) (P : A → Prop) `{∀ x, Decision (P x)}.

(** Elements of [P] that the comparator leaves in place against one
    another. *)
Hypothesis ties : ∀ x y, P x → P y → (cmp x y ≤ 0)%Z.

Lemma sort_insert_filter x l :
  filter P (JS.sort_insert cmp x l) = filter P (x :: l).
Proof.
  induction l as [|y l IH]; simpl; [done|].
  case_decide as Hxy; [done|].
  rewrite filter_cons, IH, !filter_cons.
  destruct (decide (P y)) as [Hy|Hy], (decide (P x)) as [Hx|Hx]; try done.
  destruct Hxy. by apply ties.
Qed.

Lemma sort_filter l : filter P (JS.sort cmp l) = filter P l.
Proof.
  induction l as [|x l IH]; [done|].
  unfold JS.sort in *; simpl.
  by rewrite sort_insert_filter, !filter_cons, IH.
Qed.
End StableSort.

Lemma byPopulationDesc_trans : Transitive (JS.inOrder byPopulationDesc).
Proof. intros a b c. unfold JS.inOrder, byPopulationDesc. lia. Qed.

Lemma NoDup_fmap_eq {A B} (f : A → B) (l : list A) x y :
  NoDup (f <$> l) → x ∈ l → y ∈ l → f x = f y → x = y.
Proof.
  induction l as [|z l IH]; simpl; [by intros _ ?%elem_of_nil|].
  rewrite NoDup_cons, !elem_of_cons. intros [Hz Hnd] [->|Hx] [->|Hy] Heq.
  - done.
  - destruct Hz. rewrite Heq. by apply list_elem_of_fmap_2.
  - destruct Hz. rewrite <- Heq. by apply list_elem_of_fmap_2.
  - by apply IH.
Qed.

Lemma aggregate_populations (restData : list RestCountry.t) gdpMap :
  CountryRecord.population <$> (toRecord gdpMap <$> filter hasCodes restData)
  = RestCountry.population <$> filter hasCodes restData.
Proof. by rewrite <- list_fmap_compose. Qed.

(** X6: when no two metadata entries with both codes have the same
    population, the order of the metadata entries does not matter:
    [getCountries] gives the same result on any rearrangement of them. *)
Theorem getCountries_order_irrelevant restResponse restResponse' gdpResponse :
  ok restResponse = ok restResponse' →
  json restResponse ≡ₚ json restResponse' →
  NoDup (RestCountry.population <$> filter hasCodes (json restResponse)) →
  getCountries restResponse gdpResponse
  = getCountries restResponse' gdpResponse.
Proof.
  intros Hok Hperm Hnd. unfold getCountries. rewrite <- Hok.
  destruct (ok restResponse), (ok gdpResponse); simpl; try done.
  f_equal.
  set (gdpMap := pickLatestGdp (gdpEntriesOf (json gdpResponse))).
  assert (Hp : aggregate (json restResponse) gdpMap
               ≡ₚ aggregate (json restResponse') gdpMap).
  { by rewrite !aggregate_Permutation, Hperm. }
  pose proof byPopulationDesc_trans as Htrans.
  apply (Sorted_unique_strong (JS.inOrder byPopulationDesc));
    [|apply aggregate_Sorted..|done].
  intros x1 x2 Hx1 Hx2 H12 H21.
  rewrite <- Hp in Hx2. rewrite aggregate_Permutation in Hx1, Hx2.
  rewrite <- aggregate_populations with (gdpMap := gdpMap) in Hnd.
  apply (NoDup_fmap_eq _ _ _ _ Hnd Hx1 Hx2).
  unfold JS.inOrder, byPopulationDesc in *. lia.
Qed.

Lemma getCountries_order_irrelevant_witness :
  getCountries (okWith [alpha; noCca2; beta]) (okWith JNotArray)
  = getCountries (okWith [beta; alpha; noCca2]) (okWith JNotArray).
Proof.
  apply (getCountries_order_irrelevant
           (okWith [alpha; noCca2; beta]) (okWith [beta; alpha; noCca2])).
  - reflexivity.
  - change ([alpha; noCca2; beta] ≡ₚ [beta; alpha; noCca2]).
    etrans; [apply perm_skip, perm_swap|apply perm_swap].
  - apply (bool_decide_unpack _). vm_compute. exact I.
Defined.

(** X7: the sort of [getCountries] is stable: the records of one and the
    same population stand in the output in the order of their metadata
    entries. *)
Theorem getCountries_ties_keep_order restResponse gdpResponse records p :
  getCountries restResponse gdpResponse = Resolved records →
  filter (λ r, CountryRecord.population r = p) records
  = toRecord (pickLatestGdp (gdpEntriesOf (json gdpResponse)))
      <$> filter (λ c, RestCountry.population c = p)
            (filter hasCodes (json restResponse)).
Proof.
  intros (_ & _ & ->)%getCountries_Resolved. unfold aggregate.
  rewrite sort_filter.
  - generalize (filter hasCodes (json restResponse)). intros l.
    induction l as [|c l IH]; [done|].
    rewrite fmap_cons, !filter_cons; simpl.
    destruct (decide (RestCountry.population c = p)); by rewrite IH.
  - intros x y Hx Hy. unfold byPopulationDesc. lia.
Qed.

Lemma getCountries_ties_keep_order_witness :
  filter (λ r, CountryRecord.population r = 10%Z)
    [toRecord ∅ beta; toRecord ∅ alpha;
     toRecord ∅ (mkCountry "Alpha too" (Some "AT") (Some "ATO") None 10 None)]
  = toRecord (pickLatestGdp [])
      <$> filter (λ c, RestCountry.population c = 10%Z)
            (filter hasCodes
               [alpha; beta;
                mkCountry "Alpha too" (Some "AT") (Some "ATO") None 10 None]).
Proof.
  apply (getCountries_ties_keep_order
           (okWith [alpha; beta;
                    mkCountry "Alpha too" (Some "AT") (Some "ATO") None 10 None])
           (okWith JNotArray)).
  reflexivity.
Defined.

(** ** More on the dashboard *)

Lemma includes_empty s : JS.includes s "" = true.
Proof. by destruct s. Qed.

Lemma StronglySorted_filter {A} (R : relation A) (P : A → Prop)
    `{∀ x, Decision (P x)} l :
  StronglySorted R l → StronglySorted R (filter P l).
Proof.
  induction 1 as [|x l Hl IH Hall]; [constructor|].
  rewrite filter_cons. case_decide; [|done].
  constructor; [done|]. rewrite Forall_forall in Hall |- *.
  intros y [_ Hy]%list_elem_of_filter. by apply Hall.
Qed.

Lemma filter_none {A} (P : A → Prop) `{∀ x, Decision (P x)} l :
  filter P l = [] ↔ Forall (λ y, ¬ P y) l.
Proof.
  induction l as [|z l IH]; [by split; [constructor|]|].
  rewrite filter_cons, Forall_cons. case_decide; [|by rewrite IH; tauto].
  split; [done|]. by intros [? _].
Qed.

Lemma filter_same_key {A B} `{EqDecision B} (f : A → B) (l : list A) x :
  NoDup (f <$> l) → x ∈ l → filter (λ y, f y = f x) l = [x].
Proof.
  induction l as [|z l IH]; [by intros _ ?%elem_of_nil|].
  rewrite fmap_cons, NoDup_cons, elem_of_cons, filter_cons.
  intros [Hz Hnd] [->|Hx].
  - rewrite decide_True by done. f_equal.
    apply filter_none, Forall_forall. intros y Hy Heq.
    apply Hz. rewrite <- Heq. by apply list_elem_of_fmap_2.
  - rewrite decide_False; [by apply IH|].
    intros Heq. apply Hz. rewrite Heq. by apply list_elem_of_fmap_2.
Qed.

Section VisibleList.
Context `{JS.StringBuiltins}.

Lemma matches_split st country :
  matches st country = matchesSearch st country && matchesRegion st country.
Proof. reflexivity. Qed.

Lemma filteredCountries_elem_of countries st r :
  r ∈ filteredCountries countries st ↔ r ∈ countries ∧ matches st r.
Proof.
  rewrite filteredCountries_Permutation, list_elem_of_filter. tauto.
Qed.
End VisibleList.

(** X8: the rows of the visible list are exactly the records whose name
    contains the trimmed, lower-cased search text and whose region is the
    region filter, any region passing when the filter is "All"; the list
    has no more rows than there are records. *)
Theorem filteredCountries_rows `{JS.StringBuiltins}
    (countries : list CountryRecord.t) (st : DashboardState)
    (r : CountryRecord.t) :
  (r ∈ filteredCountries countries st ↔
   r ∈ countries ∧
   JS.includes (JS.toLowerCase (CountryRecord.name r))
               (JS.toLowerCase (JS.trim (searchTerm st))) = true ∧
   (regionFilter st = "All" ∨ CountryRecord.region r = regionFilter st)) ∧
  length (filteredCountries countries st) ≤ length countries.
Proof.
  split.
  - rewrite filteredCountries_elem_of. unfold matches.
    rewrite andb_True, orb_True, !bool_decide_spec, Is_true_true. tauto.
  - rewrite filteredCountries_Permutation. apply length_filter.
Qed.

(** X9: the two filters commute: the visible list is the same whether the
    region filter is applied to the records that pass the search, or the
    search to the records that pass the region filter. *)
Theorem filteredCountries_filters_commute `{JS.StringBuiltins}
    (countries : list CountryRecord.t) (st : DashboardState) :
  filteredCountries countries st
  = JS.sort (compareBy (sortKey st) (sortDirection st))
      (filter (matchesRegion st) (filter (matchesSearch st) countries)) ∧
  filteredCountries countries st
  = JS.sort (compareBy (sortKey st) (sortDirection st))
      (filter (matchesSearch st) (filter (matchesRegion st) countries)).
Proof.
  unfold filteredCountries. split; f_equal.
  - rewrite list_filter_filter. apply list_filter_iff. intros c.
    rewrite matches_split, andb_True. tauto.
  - rewrite list_filter_filter. apply list_filter_iff. intros c.
    by rewrite matches_split, andb_True.
Qed.

(** X10: with a blank search text, a region that the region select offers
    never gives the empty list, as long as there is a record at all: the
    option "All" shows every record and any other option is the region of
    some record. *)
Theorem filteredCountries_offered_region `{JS.StringBuiltins}
    (countries : list CountryRecord.t) (st : DashboardState) :
  JS.toLowerCase (JS.trim (searchTerm st)) = "" →
  regionFilter st ∈ regions countries →
  countries ≠ [] →
  filteredCountries countries st ≠ [] ∧
  (regionFilter st = "All" → filteredCountries countries st ≡ₚ countries).
Proof.
  intros Hblank Hregion Hne.
  assert (Hsearch : ∀ c, matchesSearch st c = true).
  { intros c. unfold matchesSearch. rewrite Hblank. apply includes_empty. }
  split.
  - assert (∃ c, c ∈ filteredCountries countries st) as [c Hc];
      [|by intros Hnil; rewrite Hnil in Hc; apply elem_of_nil in Hc].
    apply regions_elem_of in Hregion as [Hall|(r & Hr & Hreg)].
    + destruct countries as [|c l]; [done|]. exists c.
      apply filteredCountries_elem_of. split; [apply list_elem_of_here|].
      rewrite matches_split, Hsearch. unfold matchesRegion.
      by rewrite bool_decide_eq_true_2.
    + exists r. apply filteredCountries_elem_of. split; [done|].
      rewrite matches_split, Hsearch. unfold matchesRegion.
      rewrite (bool_decide_eq_true_2 (_ = regionFilter st)) by done.
      by rewrite orb_true_r.
  - intros Hall. rewrite filteredCountries_Permutation.
    assert (Forall (matches st) countries) as Hforall.
    { apply Forall_forall. intros c _.
      rewrite matches_split, Hsearch. unfold matchesRegion.
      by rewrite bool_decide_eq_true_2. }
    clear -Hforall. induction Hforall as [|c l Hc _ IH]; [done|].
    rewrite filter_cons_True by done. by f_equiv.
Qed.

Lemma filteredCountries_offered_region_witness :
  @filteredCountries asciiHost sampleRecords (setRegionFilter "Y" initialState)
  ≠ [] ∧
  (regionFilter (setRegionFilter "Y" initialState) = "All" →
   @filteredCountries asciiHost sampleRecords
     (setRegionFilter "Y" initialState) ≡ₚ sampleRecords).
Proof.
  apply (@filteredCountries_offered_region asciiHost sampleRecords
           (setRegionFilter "Y" initialState)).
  - reflexivity.
  - apply (bool_decide_unpack _). vm_compute. exact I.
  - discriminate.
Defined.

Section PopulationOrder.
Context `{JS.StringBuiltins}.

Lemma compareBy_population_desc a b :
  compareBy Population Desc a b = byPopulationDesc a b.
Proof. rewrite compareBy_population. unfold byPopulationDesc; simpl. lia. Qed.

Lemma compareBy_population_inOrder dir a b :
  JS.inOrder (compareBy Population dir) a b ↔
  match dir with
  | Asc => (CountryRecord.population a ≤ CountryRecord.population b)%Z
  | Desc => (CountryRecord.population b ≤ CountryRecord.population a)%Z
  end.
Proof.
  unfold JS.inOrder. rewrite compareBy_population.
  destruct dir; simpl; lia.
Qed.
End PopulationOrder.

Lemma population_le_trans :
  Transitive (λ a b : CountryRecord.t,
                (CountryRecord.population a ≤ CountryRecord.population b)%Z).
Proof. intros a b c. lia. Qed.

Lemma filteredCountries_ordered `{JS.StringBuiltins}
    (records : list CountryRecord.t) (st : DashboardState) :
  Sorted (JS.inOrder byPopulationDesc) records →
  sortKey st = Population →
  sortDirection st = Desc →
  filteredCountries records st = filter (matches st) records.
Proof.
  intros Hsorted Hkey Hdir.
  unfold filteredCountries. rewrite Hkey, Hdir.
  apply sort_ordered_id.
  eapply Sorted_mono; [intros a b Hab; unfold JS.inOrder;
                       rewrite compareBy_population_desc; exact Hab|].
  apply StronglySorted_Sorted, StronglySorted_filter.
  pose proof byPopulationDesc_trans.
  by apply Sorted_StronglySorted.
Qed.

(** X11: on the list that [getCountries] returns, the visible list sorted by
    population, descending (the sort of the first render) keeps the order
    of the aggregator: the sort moves nothing and the rows are the matching
    records in the order [getCountries] gave them. *)
Theorem filteredCountries_keeps_aggregate_order `{JS.StringBuiltins}
    restResponse gdpResponse (records : list CountryRecord.t)
    (st : DashboardState) :
  getCountries restResponse gdpResponse = Resolved records →
  sortKey st = Population →
  sortDirection st = Desc →
  filteredCountries records st = filter (matches st) records.
Proof.
  intros (_ & _ & ->)%getCountries_Resolved Hkey Hdir.
  apply filteredCountries_ordered; [apply aggregate_Sorted|done..].
Qed.

Lemma filteredCountries_keeps_aggregate_order_witness :
  @filteredCountries asciiHost
    [toRecord ∅ beta; toRecord ∅ alpha] initialState
  = filter (@matches asciiHost initialState)
      [toRecord ∅ beta; toRecord ∅ alpha].
Proof.
  apply (@filteredCountries_keeps_aggregate_order asciiHost
           (okWith [alpha; beta]) (okWith JNotArray));
    reflexivity.
Defined.

(** X12: when no two matching records have the same population, the list
    sorted by population ascending is the reverse of the list sorted by
    population descending. *)
Theorem filteredCountries_direction_reverses `{JS.StringBuiltins}
    (countries : list CountryRecord.t) (st : DashboardState) :
  NoDup (CountryRecord.population <$> filter (matches st) countries) →
  filteredCountries countries (setSortDirection Asc (setSortKey Population st))
  = reverse (filteredCountries countries
               (setSortDirection Desc (setSortKey Population st))).
Proof.
  intros Hnd.
  set (stA := setSortDirection Asc (setSortKey Population st)).
  set (stD := setSortDirection Desc (setSortKey Population st)).
  assert (HpA : filteredCountries countries stA
                ≡ₚ filter (matches st) countries)
    by exact (filteredCountries_Permutation countries stA).
  assert (HpD : reverse (filteredCountries countries stD)
                ≡ₚ filter (matches st) countries).
  { rewrite reverse_Permutation.
    exact (filteredCountries_Permutation countries stD). }
  pose proof population_le_trans as Htrans.
  apply (Sorted_unique_strong
           (λ a b, (CountryRecord.population a
                    ≤ CountryRecord.population b)%Z));
    [| | |by rewrite HpA, HpD].
  - intros x1 x2 Hx1 Hx2 H12 H21. rewrite HpA in Hx1. rewrite HpD in Hx2.
    apply (NoDup_fmap_eq _ _ _ _ Hnd Hx1 Hx2). simpl in *. lia.
  - eapply Sorted_mono;
      [|apply (sort_Sorted _ (compareBy_population_consistent Asc))].
    intros a b Hab. by apply (compareBy_population_inOrder Asc) in Hab.
  - apply (Sorted_reverse
             (λ a b, (CountryRecord.population b
                      ≤ CountryRecord.population a)%Z)).
    eapply Sorted_mono;
      [|apply (sort_Sorted _ (compareBy_population_consistent Desc))].
    intros a b Hab. by apply (compareBy_population_inOrder Desc) in Hab.
Qed.

Lemma filteredCountries_direction_reverses_witness :
  @filteredCountries asciiHost sampleRecords
    (setSortDirection Asc (setSortKey Population initialState))
  = reverse (@filteredCountries asciiHost sampleRecords
               (setSortDirection Desc (setSortKey Population initialState))).
Proof.
  apply (@filteredCountries_direction_reverses asciiHost
           sampleRecords initialState).
  apply (bool_decide_unpack _). vm_compute. exact I.
Defined.

Lemma onSortChange_fields value st st' :
  onSortChange value st = Some st' →
  selectedCountry st' = selectedCountry st ∧
  searchTerm st' = searchTerm st ∧
  regionFilter st' = regionFilter st.
Proof.
  unfold onSortChange. intros Hst.
  destruct (split ":" value !! 0%nat ≫= asSortKey) as [key|];
    simpl in Hst; [|done].
  destruct (split ":" value !! 1%nat ≫= asDirection) as [dir|];
    simpl in Hst; [|done].
  by simplify_eq.
Qed.

Lemma onSortChange_option value st :
  value ∈ sortOptions →
  ∃ st', onSortChange value st = Some st' ∧ sortSelectValue st' = value.
Proof.
  unfold sortOptions. rewrite !elem_of_cons, elem_of_nil.
  intros [->|[->|[->|[->|[->|[->|[]]]]]]]; by eexists.
Qed.

(** X13: the sort select round-trips through the state: the text made of a
    sort key and a direction, given to the select's handler, sets exactly
    that key and that direction and leaves the rest of the state alone, and
    the select then shows the same text again; each of the six options of
    the select is such a text. *)
Theorem onSortChange_round_trip (st : DashboardState) :
  (∀ key dir,
     onSortChange (keyText key +:+ ":" +:+ directionText dir) st
     = Some {| selectedCountry := selectedCountry st;
               searchTerm := searchTerm st;
               regionFilter := regionFilter st;
               sortKey := key;
               sortDirection := dir |} ∧
     (onSortChange (keyText key +:+ ":" +:+ directionText dir) st
      ≫= λ st', Some (sortSelectValue st'))
     = Some (keyText key +:+ ":" +:+ directionText dir)) ∧
  Forall (λ value,
            ∃ key dir, value = keyText key +:+ ":" +:+ directionText dir)
         sortOptions.
Proof.
  split.
  - intros key dir. by destruct key, dir.
  - unfold sortOptions. repeat apply Forall_cons_2; [..|constructor].
    + by exists Population, Desc.
    + by exists Population, Asc.
    + by exists Gdp, Desc.
    + by exists Gdp, Asc.
    + by exists Name, Asc.
    + by exists Name, Desc.
Qed.

(** X14: the sort select has an option for the current sort only when the
    sort key is population, gdp or name: after a click on the capital or
    the currency header, the text the select is given as its value is none
    of its options. *)
Theorem sortSelectValue_offered (st : DashboardState) :
  (sortSelectValue st ∈ sortOptions ↔
   sortKey st = Population ∨ sortKey st = Gdp ∨ sortKey st = Name) ∧
  (sortSelectValue (handleSort Capital st) ∉ sortOptions) ∧
  (sortSelectValue (handleSort Currencies st) ∉ sortOptions).
Proof.
  assert (Hiff : ∀ st0,
            sortSelectValue st0 ∈ sortOptions ↔
            sortKey st0 = Population ∨ sortKey st0 = Gdp ∨ sortKey st0 = Name).
  { intros st0. unfold sortSelectValue, sortOptions.
    rewrite !elem_of_cons, elem_of_nil.
    destruct (sortKey st0), (sortDirection st0); simpl; split;
      intros Hcase; repeat (destruct Hcase as [Hcase|Hcase]);
      try discriminate; try done; auto 10. }
  split; [apply Hiff|].
  split; rewrite Hiff; unfold handleSort; case_decide as Hkey; simpl;
    rewrite ?Hkey; intros [?|[?|?]]; discriminate.
Qed.

Section Reachability.
Context `{JS.StringBuiltins}.

Lemma dispatch_fields st e st' :
  dispatch st e = Some st' →
  (regionFilter st' = regionFilter st ∨ e = RegionChange (regionFilter st')) ∧
  (selectedCountry st' = selectedCountry st
   ∨ ∃ c, e = RowClick c ∧ selectedCountry st' = Some c).
Proof.
  destruct e; simpl.
  - intros [= <-]. auto.
  - intros [= <-]. auto.
  - intros (? & ? & ?)%onSortChange_fields. auto.
  - intros [= <-]. unfold handleSort. case_decide; auto.
  - intros [= <-]. split; [auto|]. right. by eexists.
Qed.

Lemma offered_dispatch countries st e :
  offered countries st e → is_Some (dispatch st e).
Proof.
  destruct e; simpl; try by eexists.
  intros (st' & -> & _)%(onSortChange_option _ st). by eexists.
Qed.
End Reachability.

(** X15: every state the page reaches from its first render, through
    events it can deliver, keeps the region filter among the options of the
    region select and the selected country, if any, among the records; and
    in such a state every event the page can deliver has a next state. *)
Theorem reachable_invariant `{JS.StringBuiltins}
    (countries : list CountryRecord.t) (st : DashboardState) :
  reachable countries st →
  regionFilter st ∈ regions countries ∧
  (∀ c, selectedCountry st = Some c → c ∈ countries) ∧
  (∀ e, offered countries st e → is_Some (dispatch st e)).
Proof.
  intros Hreach.
  split_and!; [| |intros e; apply offered_dispatch].
  - induction Hreach as [|st e st' _ IH Hoff Hstep].
    + apply regions_elem_of. by left.
    + apply dispatch_fields in Hstep as [[->| ->] _]; [done|].
      exact Hoff.
  - induction Hreach as [|st e st' _ IH Hoff Hstep]; [done|].
    intros c Hc.
    apply dispatch_fields in Hstep as [_ [Hsame|(c' & -> & Hsel)]].
    + apply IH. by rewrite <- Hsame.
    + simpl in Hoff. apply filteredCountries_elem_of in Hoff as [Hin _].
      congruence.
Qed.

Lemma reachable_invariant_witness :
  regionFilter (setRegionFilter "Y" initialState) ∈ regions sampleRecords ∧
  (∀ c,
     selectedCountry (setRegionFilter "Y" initialState) = Some c →
     c ∈ sampleRecords) ∧
  (∀ e,
     @offered asciiHost sampleRecords (setRegionFilter "Y" initialState) e →
     is_Some (dispatch (setRegionFilter "Y" initialState) e)).
Proof.
  apply (@reachable_invariant asciiHost sampleRecords).
  apply (reachable_step sampleRecords initialState (RegionChange "Y")).
  - apply reachable_initial.
  - change ("Y" ∈ regions sampleRecords).
    apply (bool_decide_unpack _). vm_compute. exact I.
  - reflexivity.
Defined.

Lemma run_selected events st st' :
  run st events = Some st' →
  selectedCountry st' =
  match lastClicked events with
  | Some c => Some c
  | None => selectedCountry st
  end.
Proof.
  revert st. induction events as [|e events IH]; intros st; simpl.
  - by intros [= <-].
  - destruct (dispatch st e) as [st1|] eqn:Hstep; simpl; [|done].
    intros Hrun. rewrite (IH _ Hrun).
    destruct (lastClicked events) as [c|]; [done|].
    destruct e; simpl in Hstep; simplify_eq; try done.
    + by apply onSortChange_fields in Hstep as (? & _).
    + unfold handleSort. by case_decide.
Qed.

(** X16: a selection is never cleared and only a row click changes it:
    after any run of events the selected country is the country of the last
    row click of the run, or the one selected before when the run has no
    row click; the badge then names that country and its capital. *)
Theorem run_selection events st st' :
  run st events = Some st' →
  selectedCountry st' =
    match lastClicked events with
    | Some c => Some c
    | None => selectedCountry st
    end ∧
  (is_Some (selectedCountry st) → is_Some (selectedCountry st')) ∧
  (∀ c, lastClicked events = Some c →
        badge st' = CountryRecord.name c +:+ " · " +:+ CountryRecord.capital c).
Proof.
  intros Hrun. pose proof (run_selected _ _ _ Hrun) as Hsel.
  split_and!; [done| |].
  - rewrite Hsel. by destruct (lastClicked events).
  - intros c Hc. unfold badge. by rewrite Hsel, Hc.
Qed.

Lemma run_selection_witness :
  selectedCountry
    (setRegionFilter "Y"
       (handleSort Name (setSelectedCountry withGdp initialState)))
  = match lastClicked [RowClick withGdp; HeaderClick Name; RegionChange "Y"] with
    | Some c => Some c
    | None => selectedCountry initialState
    end ∧
  (is_Some (selectedCountry initialState) →
   is_Some (selectedCountry
              (setRegionFilter "Y"
                 (handleSort Name (setSelectedCountry withGdp initialState))))) ∧
  (∀ c,
     lastClicked [RowClick withGdp; HeaderClick Name; RegionChange "Y"] = Some c →
     badge (setRegionFilter "Y"
              (handleSort Name (setSelectedCountry withGdp initialState)))
     = CountryRecord.name c +:+ " · " +:+ CountryRecord.capital c).
Proof.
  apply (run_selection [RowClick withGdp; HeaderClick Name; RegionChange "Y"]
           initialState).
  reflexivity.
Defined.

Section TableFacts.
Context `{JS.StringBuiltins} `{Formatters}.

Lemma tableBody_Rows countries st :
  filteredCountries countries st ≠ [] →
  tableBody countries st = Rows (row st <$> filteredCountries countries st).
Proof.
  intros Hne. unfold tableBody.
  rewrite decide_False; [done|]. by intros ?%nil_length_inv.
Qed.

Lemma tableBody_EmptyState countries st :
  tableBody countries st = EmptyState ↔ filteredCountries countries st = [].
Proof.
  unfold tableBody. case_decide as Hlen.
  - apply nil_length_inv in Hlen. by rewrite Hlen.
  - split; [done|]. intros Hnil. by rewrite Hnil in Hlen.
Qed.

Lemma filter_rowSelected st (l : list CountryRecord.t) :
  filter (λ r, rowSelected r = true) (row st <$> l)
  = row st <$> filter (λ c, isSelectedRow st c = true) l.
Proof.
  induction l as [|c l IH]; [done|].
  rewrite fmap_cons, !filter_cons; simpl.
  destruct (decide (isSelectedRow st c = true)); by rewrite IH.
Qed.
End TableFacts.

(** X17: when the records have pairwise distinct [cca3] and the selected
    country is a row of the visible list, the table has rows and exactly
    one of them is marked selected, the row of that country. *)
Theorem tableBody_one_selected `{JS.StringBuiltins} `{Formatters}
    (countries : list CountryRecord.t) (st : DashboardState)
    (c : CountryRecord.t) :
  NoDup (CountryRecord.cca3 <$> countries) →
  selectedCountry st = Some c →
  c ∈ filteredCountries countries st →
  ∃ rows,
    tableBody countries st = Rows rows ∧
    filter (λ r, rowSelected r = true) rows = [row st c].
Proof.
  intros Hnd Hsel Hc. eexists. split.
  - apply tableBody_Rows. intros Hnil. rewrite Hnil in Hc.
    by apply elem_of_nil in Hc.
  - rewrite filter_rowSelected.
    assert (Hnd' : NoDup (CountryRecord.cca3
                          <$> filteredCountries countries st)).
    { rewrite filteredCountries_Permutation.
      clear -Hnd. induction countries as [|x l IH]; [constructor|].
      rewrite fmap_cons, NoDup_cons in Hnd. destruct Hnd as [Hx Hl].
      rewrite filter_cons. case_decide; [|by apply IH].
      rewrite fmap_cons, NoDup_cons. split; [|by apply IH].
      intros (y & Hy & [_ Hin]%list_elem_of_filter)%list_elem_of_fmap.
      apply Hx. rewrite Hy. by apply list_elem_of_fmap_2. }
    change [row st c] with (row st <$> [c]).
    rewrite <- (filter_same_key CountryRecord.cca3 _ c Hnd' Hc).
    f_equal. apply list_filter_iff. intros c'.
    unfold isSelectedRow. rewrite Hsel; simpl.
    rewrite bool_decide_eq_true. split; by intros ->.
Qed.

Lemma tableBody_one_selected_witness :
  ∃ rows,
    @tableBody asciiHost sampleFormatters sampleRecords
      (setSelectedCountry (toRecord ∅ alpha) initialState) = Rows rows ∧
    filter (λ r, rowSelected r = true) rows
    = [@row sampleFormatters
         (setSelectedCountry (toRecord ∅ alpha) initialState)
         (toRecord ∅ alpha)].
Proof.
  apply (@tableBody_one_selected asciiHost sampleFormatters sampleRecords
           (setSelectedCountry (toRecord ∅ alpha) initialState)
           (toRecord ∅ alpha)).
  - apply (bool_decide_unpack _). vm_compute. exact I.
  - reflexivity.
  - apply list_elem_of_further, list_elem_of_here.
Defined.

(** X18: the table shows the empty state exactly when no record passes the
    filters; otherwise it shows one row for each passing record, and the
    keys of the rows are pairwise distinct whenever the [cca3] of the
    records are. *)
Theorem tableBody_rows `{JS.StringBuiltins} `{Formatters}
    (countries : list CountryRecord.t) (st : DashboardState) :
  (tableBody countries st = EmptyState ↔
   Forall (λ c, matches st c = false) countries) ∧
  (∀ rows,
     tableBody countries st = Rows rows →
     rows ≠ [] ∧
     length rows = length (filter (matches st) countries) ∧
     rowKey <$> rows ≡ₚ CountryRecord.cca3 <$> filter (matches st) countries ∧
     (NoDup (CountryRecord.cca3 <$> countries) → NoDup (rowKey <$> rows))).
Proof.
  split.
  - rewrite tableBody_EmptyState. split.
    + intros Hnil. apply Forall_forall. intros c Hc.
      destruct (matches st c) eqn:Hm; [|done].
      assert (c ∈ filteredCountries countries st) as Hin.
      { apply filteredCountries_elem_of. by rewrite Hm. }
      rewrite Hnil in Hin. by apply elem_of_nil in Hin.
    + intros Hall. apply Permutation_nil_r.
      rewrite filteredCountries_Permutation.
      assert (filter (matches st) countries = []) as ->; [|done].
      apply filter_none.
      eapply Forall_impl; [exact Hall|]. intros c ->. simpl. tauto.
  - intros rows. unfold tableBody. case_decide as Hlen; [done|].
    intros [= <-].
    assert (Hkeys : rowKey <$> (row st <$> filteredCountries countries st)
                    ≡ₚ CountryRecord.cca3 <$> filter (matches st) countries).
    { rewrite <- list_fmap_compose.
      by rewrite filteredCountries_Permutation. }
    split_and!.
    + intros Hnil. apply fmap_nil_inv in Hnil. by rewrite Hnil in Hlen.
    + by rewrite length_fmap, filteredCountries_Permutation.
    + done.
    + intros Hnd. rewrite Hkeys.
      clear -Hnd. induction countries as [|x l IH]; [constructor|].
      rewrite fmap_cons, NoDup_cons in Hnd. destruct Hnd as [Hx Hl].
      rewrite filter_cons. case_decide; [|by apply IH].
      rewrite fmap_cons, NoDup_cons. split; [|by apply IH].
      intros (y & Hy & [_ Hin]%list_elem_of_filter)%list_elem_of_fmap.
      apply Hx. rewrite Hy. by apply list_elem_of_fmap_2.
Qed.

Lemma tableBody_rows_witness :
  [@row sampleFormatters (setRegionFilter "Y" initialState)
     (toRecord ∅ noCurrency)] ≠ [] ∧
  length [@row sampleFormatters (setRegionFilter "Y" initialState)
            (toRecord ∅ noCurrency)]
  = length (filter (@matches asciiHost (setRegionFilter "Y" initialState))
              sampleRecords) ∧
  rowKey <$> [@row sampleFormatters (setRegionFilter "Y" initialState)
                (toRecord ∅ noCurrency)]
  ≡ₚ CountryRecord.cca3
       <$> filter (@matches asciiHost (setRegionFilter "Y" initialState))
             sampleRecords ∧
  (NoDup (CountryRecord.cca3 <$> sampleRecords) →
   NoDup (rowKey <$> [@row sampleFormatters (setRegionFilter "Y" initialState)
                        (toRecord ∅ noCurrency)])).
Proof.
  apply (proj2 (@tableBody_rows asciiHost sampleFormatters sampleRecords
                  (setRegionFilter "Y" initialState))).
  reflexivity.
Defined.

Lemma strictEq_true v cca3 :
  strictEq v cca3 = true ↔
  (v = Null ∧ cca3 = None) ∨ (∃ code, v = Text code ∧ cca3 = Some code).
Proof.
  destruct v as [| |s|], cca3 as [code|]; simpl;
    rewrite ?bool_decide_eq_true; split;
    try (intros [[? ?]|(? & ? & ?)]; by simplify_eq);
    try done; eauto.
  intros ->. right. by eexists.
Qed.

(** X19: the two maps agree on a feature that has an [ISO_A3] value, and
    with a country selected every feature the vector map highlights is
    highlighted by the tile map too; the tile map, besides, falls back on
    [ADM0_A3] and then [iso_a3] for a feature without [ISO_A3], and a
    present [ISO_A3] that is not the selected code hides the other two. *)
Theorem isSelectedFeature_refines (st : DashboardState) (f : Feature) :
  (ISO_A3 f ≠ Undefined → ISO_A3 f ≠ Null →
   isSelectedFeature st f = isSelectedGeography st f) ∧
  (is_Some (selectedCca3 st) →
   isSelectedGeography st f = true → isSelectedFeature st f = true) ∧
  (ISO_A3 f = Undefined ∨ ISO_A3 f = Null →
   isSelectedFeature st f
   = strictEq (coalesce (ADM0_A3 f) (iso_a3 f)) (selectedCca3 st)).
Proof.
  unfold isSelectedFeature, isSelectedGeography. split_and!.
  - intros Hu Hn. by destruct (ISO_A3 f).
  - intros [code Hcode]. rewrite Hcode.
    intros [[_ ?]|(s & Hs & [= ->])]%strictEq_true; [done|].
    rewrite Hs; simpl. by apply bool_decide_eq_true_2.
  - by intros [-> | ->].
Qed.

Lemma isSelectedFeature_refines_witness :
  isSelectedFeature (setSelectedCountry (toRecord ∅ beta) initialState)
    betaFeature
  = strictEq (coalesce (ADM0_A3 betaFeature) (iso_a3 betaFeature))
      (selectedCca3 (setSelectedCountry (toRecord ∅ beta) initialState)) ∧
  isSelectedFeature (setSelectedCountry (toRecord ∅ beta) initialState)
    franceFeature
  = isSelectedGeography (setSelectedCountry (toRecord ∅ beta) initialState)
      franceFeature.
Proof.
  destruct (isSelectedFeature_refines
              (setSelectedCountry (toRecord ∅ beta) initialState) betaFeature)
    as (_ & _ & Hfallback).
  destruct (isSelectedFeature_refines
              (setSelectedCountry (toRecord ∅ beta) initialState)
              franceFeature)
    as (Hagree & _ & _).
  split.
  - apply Hfallback. left. reflexivity.
  - apply Hagree; simpl; discriminate.
Defined.

(** X20: with no country selected nothing that carries a code is
    highlighted: no row of a record that has a [cca3], and on either map no
    feature whose code is a text; a feature is highlighted then only when
    the value the map compares is null. *)
Theorem no_selection_no_highlight (st : DashboardState)
    (country : CountryRecord.t) (f : Feature) :
  selectedCountry st = None →
  (is_Some (CountryRecord.cca3 country) → isSelectedRow st country = false) ∧
  (isSelectedGeography st f = true ↔ ISO_A3 f = Null) ∧
  (isSelectedFeature st f = true ↔
   coalesce (ISO_A3 f) (coalesce (ADM0_A3 f) (iso_a3 f)) = Null) ∧
  (isSelectedFeature st f = true →
   (ISO_A3 f = Undefined ∨ ISO_A3 f = Null) ∧
   (ADM0_A3 f = Undefined ∨ ADM0_A3 f = Null) ∧ iso_a3 f = Null).
Proof.
  intros Hsel.
  assert (Hnone : selectedCca3 st = None) by (unfold selectedCca3; by rewrite Hsel).
  unfold isSelectedRow, isSelectedFeature, isSelectedGeography.
  rewrite Hsel, Hnone; simpl. split_and!.
  - intros [code ->]. by apply bool_decide_eq_false_2.
  - rewrite strictEq_true. split; [|by left].
    by intros [[? _]|(? & _ & ?)].
  - rewrite strictEq_true. split; [|by left].
    by intros [[? _]|(? & _ & ?)].
  - rewrite strictEq_true. intros [[Hnull _]|(? & _ & ?)]; [|done].
    destruct (ISO_A3 f), (ADM0_A3 f), (iso_a3 f); simplify_eq/=; eauto.
Qed.

Lemma no_selection_no_highlight_witness :
  (is_Some (CountryRecord.cca3 withGdp) →
   isSelectedRow initialState withGdp = false) ∧
  (isSelectedGeography initialState franceFeature = true ↔
   ISO_A3 franceFeature = Null) ∧
  (isSelectedFeature initialState franceFeature = true ↔
   coalesce (ISO_A3 franceFeature)
     (coalesce (ADM0_A3 franceFeature) (iso_a3 franceFeature)) = Null) ∧
  (isSelectedFeature initialState franceFeature = true →
   (ISO_A3 franceFeature = Undefined ∨ ISO_A3 franceFeature = Null) ∧
   (ADM0_A3 franceFeature = Undefined ∨ ADM0_A3 franceFeature = Null) ∧
   iso_a3 franceFeature = Null).
Proof.
  apply (no_selection_no_highlight initialState withGdp franceFeature).
  reflexivity.
Defined.

Lemma sort_set_of_strict (l : list string) :
  StronglySorted (λ x y, String.compare x y = Lt)
    (JS.sort JS.defaultCompare (JS.set_of l)).
Proof.
  apply StronglySorted_NoDup_strict.
  - apply Sorted_StronglySorted; [apply _|].
    eapply Sorted_mono; [|apply sort_Sorted, defaultCompare_consistent].
    intros x y. apply defaultCompare_inOrder.
  - rewrite sort_Permutation. apply set_of_NoDup.
Qed.

(** X21: the options of the region select depend on the set of region
    values alone: two record lists with the same region values, in any
    order and with any repetition, get the same options in the same
    order. *)
Theorem regions_same_values (countries countries' : list CountryRecord.t) :
  (∀ s, s ∈ CountryRecord.region <$> countries
        ↔ s ∈ CountryRecord.region <$> countries') →
  regions countries = regions countries'.
Proof.
  intros Hsame. rewrite !regions_unfold. f_equal.
  apply (StronglySorted_unique_strong (λ x y, String.compare x y = Lt));
    [|apply sort_set_of_strict..|].
  - intros x y _ _ Hxy Hyx. rewrite String.compare_antisym, Hyx in Hxy.
    discriminate.
  - apply NoDup_Permutation.
    + rewrite sort_Permutation. apply set_of_NoDup.
    + rewrite sort_Permutation. apply set_of_NoDup.
    + intros s. by rewrite !sort_elem_of, !set_of_elem_of.
Qed.

Lemma regions_same_values_witness :
  regions [toRecord ∅ alpha; toRecord ∅ noCurrency; toRecord ∅ beta]
  = regions [toRecord ∅ noCurrency; toRecord ∅ alpha].
Proof.
  apply regions_same_values. intros s.
  change (s ∈ ["X"; "Y"; "X"] ↔ s ∈ ["Y"; "X"]).
  rewrite !elem_of_cons, elem_of_nil. tauto.
Defined.

Lemma filter_Forall_id {A} (P : A → Prop) `{∀ x, Decision (P x)} l :
  Forall P l → filter P l = l.
Proof.
  induction 1 as [|x l Hx _ IH]; [done|].
  by rewrite filter_cons_True, IH.
Qed.

(** X22: the first render of the page shows what [getCountries] returned:
    with the state of the first render, on a host that trims and
    lower-cases the empty text to the empty text, the visible list is the
    returned list itself, in its order, and the table has a row for each
    record, or the empty state when there is none. *)
Theorem first_render_shows_all `{JS.StringBuiltins} `{Formatters}
    restResponse gdpResponse (records : list CountryRecord.t) :
  JS.toLowerCase (JS.trim "") = "" →
  getCountries restResponse gdpResponse = Resolved records →
  filteredCountries records initialState = records ∧
  tableBody records initialState =
    match records with
    | [] => EmptyState
    | _ => Rows (row initialState <$> records)
    end.
Proof.
  intros Hblank Hget.
  assert (Hvisible : filteredCountries records initialState = records).
  { apply getCountries_Resolved in Hget as (_ & _ & ->).
    rewrite filteredCountries_ordered by (apply aggregate_Sorted || done).
    apply filter_Forall_id, Forall_forall. intros c _.
    unfold matches; simpl. rewrite Hblank, includes_empty. done. }
  split; [done|].
  unfold tableBody. rewrite Hvisible.
  destruct records; [done|]. by rewrite decide_False.
Qed.

Lemma first_render_shows_all_witness :
  @filteredCountries asciiHost
    [toRecord ∅ beta; toRecord ∅ alpha] initialState
  = [toRecord ∅ beta; toRecord ∅ alpha] ∧
  @tableBody asciiHost sampleFormatters
    [toRecord ∅ beta; toRecord ∅ alpha] initialState
  = Rows (@row sampleFormatters initialState
            <$> [toRecord ∅ beta; toRecord ∅ alpha]).
Proof.
  apply (@first_render_shows_all asciiHost sampleFormatters
           (okWith [alpha; beta]) (okWith JNotArray)
           [toRecord ∅ beta; toRecord ∅ alpha]);
    reflexivity.
Defined.

Lemma append_cons c s t : String c s +:+ t = String c (s +:+ t).
Proof. reflexivity. Qed.

Lemma append_assoc s t u : (s +:+ t) +:+ u = s +:+ t +:+ u.
Proof.
  induction s as [|c s IH]; [done|]. by rewrite !append_cons, IH.
Qed.

Lemma prefix_spec t s : String.prefix t s = true ↔ ∃ post, s = t +:+ post.
Proof.
  revert t. induction s as [|b s IH]; intros [|a t]; simpl.
  - split; [by exists ""|done].
  - split; [done|]. by intros [post ?].
  - split; [by eexists|done].
  - destruct (ascii_dec a b) as [->|Hne].
    + rewrite IH. split; intros [post Hpost]; exists post.
      * by rewrite append_cons, Hpost.
      * rewrite append_cons in Hpost. by simplify_eq.
    + split; [done|]. intros [post Hpost].
      rewrite append_cons in Hpost. by simplify_eq.
Qed.

Lemma includes_unfold s t :
  JS.includes s t =
  String.prefix t s ||
  match s with
  | EmptyString => false
  | String _ s' => JS.includes s' t
  end.
Proof. by destruct s. Qed.

(** [JS.includes] is the substring test. *)
Lemma includes_spec s t :
  JS.includes s t = true ↔ ∃ pre post, s = pre +:+ t +:+ post.
Proof.
  split.
  - induction s as [|c s IH]; rewrite includes_unfold, orb_true_iff.
    + intros [(post & ->)%prefix_spec|?]; [|done]. by exists "", post.
    + intros [(post & ->)%prefix_spec|(pre & post & ->)%IH].
      * by exists "", post.
      * by exists (String c pre), post.
  - intros (pre & post & ->). induction pre as [|c pre IH].
    + rewrite includes_unfold, orb_true_iff. left.
      apply prefix_spec. by exists post.
    + rewrite append_cons, includes_unfold, orb_true_iff. by right.
Qed.

Lemma includes_trans s t u :
  JS.includes s t = true → JS.includes t u = true → JS.includes s u = true.
Proof.
  rewrite !includes_spec.
  intros (p1 & q1 & ->) (p2 & q2 & ->).
  exists (p1 +:+ p2), (q2 +:+ q1). by rewrite !append_assoc.
Qed.

(** X23: narrowing the filters never adds a row: when the new search text,
    trimmed and lower-cased, contains the old one, and the region filter is
    the same or the old one is "All", every row of the new visible list is
    a row of the old one. *)
Theorem filteredCountries_narrows `{JS.StringBuiltins}
    (countries : list CountryRecord.t) (st st' : DashboardState)
    (r : CountryRecord.t) :
  JS.includes (JS.toLowerCase (JS.trim (searchTerm st')))
              (JS.toLowerCase (JS.trim (searchTerm st))) = true →
  regionFilter st' = regionFilter st ∨ regionFilter st = "All" →
  r ∈ filteredCountries countries st' →
  r ∈ filteredCountries countries st.
Proof.
  intros Hsearch Hregion.
  rewrite !filteredCountries_elem_of, !matches_split, !andb_True.
  intros (Hin & Hs & Hr). split_and!; [done| |].
  - apply Is_true_true. apply Is_true_true in Hs.
    unfold matchesSearch in *. by eapply includes_trans.
  - unfold matchesRegion in *. destruct Hregion as [<-|Hall]; [done|].
    by rewrite (bool_decide_eq_true_2 _ Hall).
Qed.

Lemma filteredCountries_narrows_witness :
  toRecord ∅ alpha
  ∈ @filteredCountries asciiHost sampleRecords (setSearchTerm " AL" initialState).
Proof.
  apply (@filteredCountries_narrows asciiHost sampleRecords
           (setSearchTerm " AL" initialState)
           (setRegionFilter "X" (setSearchTerm "alp " initialState))).
  - reflexivity.
  - right. reflexivity.
  - apply list_elem_of_here.
Defined.
